(** * elevenlabs-cli: the remote client, the configuration resolver and
      the Markdown report, as a shallow embedding of the TypeScript sources.

    Layout: JavaScript primitives, the data model of [types/elevenlabs.ts],
    [lib/api-client.ts], [lib/config.ts], [commands/list.ts],
    [commands/analyze.ts]; then the properties.

    Conventions.  A JavaScript number that the API uses as a count, a status
    code or a number of whole seconds is given by a [Z], a latency in
    seconds by a [Q]: the number as the response writes it.  Where the
    program computes with such a number ([formatDuration], [toFixed]) it
    is first rounded to the nearest IEEE 754 double ([binary64]), as
    [JSON.parse] does, and every division rounds again.  A promise is its
    settlement, [Resolved] or [Rejected].  An optional property is an
    [option]. *)

From stdpp Require Import gmap strings list fin_maps pretty.
From Stdlib Require Import Ascii ZArith QArith Qround Qabs Lqa.

#[local] Open Scope Z_scope.

(** ** JavaScript primitives *)

Module JS.

(** The line feed written [\n] in the sources. *)
Definition LF : string := String "010"%char "".

(** [ToBoolean] on a string: only the empty string is falsy. *)
Definition truthy (s : string) : bool := bool_decide (s ≠ "").

(** A value of type [string | undefined] used as a condition: the string
      when it is truthy. *)
Definition truthy_value (v : option string) : option string :=
    v ≫= λ s, if truthy s then Some s else None.

(** [v || d] for [v : string | undefined]. *)
Definition or_else (v : option string) (d : string) : string :=
    default d (truthy_value v).

(** [`${n}`] for an integral number. *)
Definition ToString (n : Z) : string := pretty n.

(** [f] decimal digits of [k], most significant first, zero padded. *)
Fixpoint fraction_digits (f : nat) (k : Z) : string :=
    match f with
    | O => ""
    | S f' => fraction_digits f' (k / 10) +:+ pretty (k mod 10)
    end.

(** *** Numbers as IEEE 754 doubles *)

(** The binary exponent of a positive rational: the [k] with
    [2^k <= a < 2^(k+1)]. *)
Definition ilog2 (a : Q) : Z :=
  if Qle_bool 1 a then Z.log2 (Qfloor a) else - Z.log2_up (Qceiling (/ a)).

(** The nearest integer, a tie going to the even one. *)
Definition round_half_even (q : Q) : Z :=
  let f := Qfloor q in
  match (q - inject_Z f ?= 1 # 2)%Q with
  | Lt => f
  | Gt => f + 1
  | Eq => if Z.even f then f else f + 1
  end.

(** roundTiesToEven to 53 significant bits, with the subnormal spacing
    2^-1074 at the bottom and no bound on the exponent at the top: the
    double nearest to [x].  A result of 2^1024 or more stands for an
    infinity ([is_infinite]). *)
Definition binary64 (x : Q) : Q :=
  if Qeq_bool x 0 then 0%Q
  else
    let e := Z.max (ilog2 (Qabs x) - 52) (-1074) in
    if decide (0 ≤ e) then
      inject_Z (round_half_even (x / inject_Z (2 ^ e)) * 2 ^ e)
    else
      round_half_even (x * inject_Z (2 ^ (- e))) # Z.to_pos (2 ^ (- e)).

Definition is_infinite (y : Q) : bool :=
  Qle_bool (inject_Z (2 ^ 1024)) (Qabs y).

(** [Number::toString] (ECMA-262) for a double [x] whose value is a whole
    number.  Up to 2^53 in magnitude every whole number is a double of its
    own and the text is its decimal digits.  Beyond, the text has the
    fewest significant digits [s] such that [s * 10^p] is read back as
    [x], the closest such value, followed by [p] zeros, or in exponent
    notation from 22 digits on. *)
Definition reads_back (x s p : Z) : bool :=
  Qeq_bool (binary64 (inject_Z (s * 10 ^ p))) (inject_Z x).

(** The pairs [(s, p)] with [k] digits in [s] that are read back as [x],
    [d] being the number of digits of [x]. *)
Definition decimal_candidates (x d k : Z) : list (Z * Z) :=
  List.filter
    (λ c, bool_decide (10 ^ (k - 1) ≤ c.1 < 10 ^ k) && reads_back x c.1 c.2)
    (List.flat_map
       (λ n, let p := n - k in
             if decide (0 ≤ p) then [(x / 10 ^ p, p); (x / 10 ^ p + 1, p)]
             else [])
       [d; d + 1]).

Definition closer (x : Z) (c1 c2 : Z * Z) : Z * Z :=
  let d1 := Z.abs (c1.1 * 10 ^ c1.2 - x) in
  let d2 := Z.abs (c2.1 * 10 ^ c2.2 - x) in
  if decide (d1 < d2) then c1
  else if decide (d2 < d1) then c2
  else if Z.even c1.1 then c1 else c2.

Definition closest (x : Z) (cs : list (Z * Z)) : option (Z * Z) :=
  match cs with
  | [] => None
  | c :: rest => Some (foldl (closer x) c rest)
  end.

Fixpoint shortest_decimal (fuel : nat) (x d k : Z) : option (Z * Z) :=
  match fuel with
  | O => None
  | S fuel' =>
    match closest x (decimal_candidates x d k) with
    | Some c => Some c
    | None => shortest_decimal fuel' x d (k + 1)
    end
  end.

Fixpoint zeros (n : nat) : string :=
  match n with
  | O => ""
  | S n' => String "0" (zeros n')
  end.

Definition Number_toString (x : Z) : string :=
  if decide (Z.abs x ≤ 2 ^ 53) then pretty x
  else
    let a := Z.abs x in
    let d := Z.of_nat (String.length (pretty a)) in
    (if decide (x < 0) then "-" else "") +:+
    match shortest_decimal 17 a d 1 with
    | Some (s, p) =>
      let digits := pretty s in
      let n := Z.of_nat (String.length digits) + p in
      if decide (n ≤ 21) then digits +:+ zeros (Z.to_nat p)
      else
        match digits with
        | String c EmptyString => String c "e+" +:+ pretty (n - 1)
        | String c rest => String c ("." +:+ rest) +:+ "e+" +:+ pretty (n - 1)
        | EmptyString => digits
        end
    | None => pretty a
    end.

(** [x.toFixed(f)] (ECMA-262, Number.prototype.toFixed), [x] being read
    as a double first.  From 10^21 on the text is that of [toString]
    ("Infinity" for an infinity); below, [n] is the integer nearest to
    [|x| * 10^f], the larger one on a tie, written with [f] decimals. *)
Definition toFixed (x : Q) (f : nat) : string :=
  let x := binary64 x in
  let s := if Qlt_le_dec x 0 then "-" else "" in
  let a := Qabs x in
  if Qle_bool (inject_Z (10 ^ 21)) a then
    s +:+ (if is_infinite x then "Infinity" else Number_toString (Qfloor a))
  else
    let n := Qfloor (a * inject_Z (10 ^ Z.of_nat f) + (1 # 2)) in
    let m := pretty (n / 10 ^ Z.of_nat f) in
    s +:+ match f with
          | O => m
          | S _ => m +:+ "." +:+ fraction_digits f (n mod 10 ^ Z.of_nat f)
          end.

(** [array.forEach((x, index) => ...)] where the callback updates the
      variables it closes over, here the state [st]. *)
Fixpoint forEach_from {A St : Type} (callback : St → A → nat → St)
      (index : nat) (array : list A) (st : St) : St :=
    match array with
    | [] => st
    | x :: rest => forEach_from callback (S index) rest (callback st x index)
    end.

Definition forEach {A St : Type} (callback : St → A → nat → St)
      (array : list A) (st : St) : St :=
    forEach_from callback 0 array st.

(** A settled promise. *)
Inductive Promise (A E : Type) : Type :=
  | Resolved (value : A)
  | Rejected (reason : E).
  #[global] Arguments Resolved {A E} value.
  #[global] Arguments Rejected {A E} reason.

End JS.
Import JS.

(** ** HTTP transport (axios) *)

(** The [response] property of a failed request. *)
Record HttpResponse := {
  http_status : Z;
  statusText : string
}.

(** What [client.get] rejects with: an error object, with a [response] when
    the server answered. *)
Record TransportError := {
  err_message : string;
  response : option HttpResponse
}.

(** What an operation of this program throws. *)
Inductive Thrown :=
| Error (message : string)          (* [new Error(message)] *)
| Propagated (error : TransportError) (* [throw error] *)
| TypeError (message : string).     (* a property read on [undefined] *)

Record RequestConfig := {
  params : list (string * option Z);
  responseType : option string
}.

Record Request := {
  url : string;
  config : option RequestConfig
}.

Record AxiosConfig := {
  baseURL : string;
  headers : list (string * string)
}.

(** An axios instance, seen through its [get] method. *)
Definition AxiosInstance (D : Type) : Type := Request → Promise D TransportError.

(** A client operation: the requests it sent and how it settled. *)
Record Call (D : Type) := {
  sent : list Request;
  settled : Promise D Thrown
}.
Arguments sent {D} _.
Arguments settled {D} _.

(** ** types/elevenlabs.ts *)

Inductive Role := user | agent.

Record LatencyMetric := { elapsed_time : Q }.

Record TurnMetrics := {
  convai_llm_service_ttfb : option LatencyMetric;
  convai_llm_service_ttf_sentence : option LatencyMetric
}.

Record ConversationMetadata := {
  start_time_unix_secs : Z;
  call_duration_secs : Z;
  cost : Z;
  termination_reason : option string
}.

Record ConversationAnalysis := {
  call_successful : string;
  transcript_summary : string
}.

Record ConversationListItem := {
  item_conversation_id : string;   (* conversation_id *)
  item_agent_id : string;          (* agent_id *)
  created_at : string;
  item_status : option string      (* status *)
}.

Record ConversationListResponse := {
  conversations : list ConversationListItem
}.

Record ListConversationsOptions := {
  limit : option Z;
  offset : option Z
}.

Section Transcript.
(** [any] / [Record<string, any>]: a JSON value. *)
Variable Json : Type.

Record ToolCall := {
    tool_call_id : string;
    name : string;
    parameters : Json
  }.

Record ToolResult := {
    result_tool_call_id : string;    (* tool_call_id *)
    result : Json;
    error : option string
  }.

Record ConversationMessage := {
    role : Role;
    message : string;
    tool_calls : option (list ToolCall);
    tool_results : option (list ToolResult);
    time_in_call_secs : Z;
    conversation_turn_metrics : option TurnMetrics
  }.

(** [transcript], [metadata] and [analysis] are read behind [?.] or
      unguarded from a response that is not validated; each may be
      missing at run time. *)
Record Conversation := {
    conversation_id : string;
    agent_id : string;
    status : string;
    transcript : option (list ConversationMessage);
    metadata : option ConversationMetadata;
    analysis : option ConversationAnalysis
  }.
End Transcript.

Arguments tool_call_id {Json} _.
Arguments name {Json} _.
Arguments parameters {Json} _.
Arguments result_tool_call_id {Json} _.
Arguments result {Json} _.
Arguments error {Json} _.
Arguments role {Json} _.
Arguments message {Json} _.
Arguments tool_calls {Json} _.
Arguments tool_results {Json} _.
Arguments time_in_call_secs {Json} _.
Arguments conversation_turn_metrics {Json} _.
Arguments conversation_id {Json} _.
Arguments agent_id {Json} _.
Arguments status {Json} _.
Arguments transcript {Json} _.
Arguments metadata {Json} _.
Arguments analysis {Json} _.

(** ** lib/api-client.ts *)

Section ElevenLabsClient.
Context {D : Type}.

(** The constructor; [axios_create] is [axios.create]. *)
Definition ElevenLabsClient (axios_create : AxiosConfig → AxiosInstance D)
      (apiKey : string) : AxiosInstance D :=
    axios_create {| baseURL := "https://api.elevenlabs.io";
                    headers := [("xi-api-key", apiKey)] |}.

Definition getConversation (client : AxiosInstance D)
      (conversationId : string) : Call D :=
    let request :=
      {| url := "/v1/convai/conversations/" +:+ conversationId;
         config := None |} in
    {| sent := [request];
       settled :=
         match client request with
         | Resolved data => Resolved data
         | Rejected error =>
           match response error with
           | Some r =>
             Rejected (Error ("API Error: " +:+ ToString (http_status r)
                              +:+ " " +:+ statusText r))
           | None => Rejected (Propagated error)
           end
         end |}.

Definition listConversations (client : AxiosInstance D)
      (options : option ListConversationsOptions) : Call D :=
    let request :=
      {| url := "/v1/convai/conversations";
         config := Some {| params := [("page_size", options ≫= limit)];
                           responseType := None |} |} in
    {| sent := [request];
       settled :=
         match client request with
         | Resolved data => Resolved data
         | Rejected error =>
           match response error with
           | Some r =>
             Rejected (Error ("API Error: " +:+ ToString (http_status r)
                              +:+ " " +:+ statusText r))
           | None => Rejected (Propagated error)
           end
         end |}.

Definition getAudio (client : AxiosInstance D)
      (conversationId : string) : Call D :=
    let request :=
      {| url := "/v1/convai/conversations/" +:+ conversationId +:+ "/audio";
         config := Some {| params := [];
                           responseType := Some "arraybuffer" |} |} in
    {| sent := [request];
       settled :=
         match client request with
         | Resolved data => Resolved data
         | Rejected error =>
           match response error with
           | Some r =>
             Rejected (Error ("API Error: " +:+ ToString (http_status r)
                              +:+ " " +:+ statusText r))
           | None => Rejected (Propagated error)
           end
         end |}.
End ElevenLabsClient.


(** ** lib/config.ts *)

Record Config := { apiKey : string }.

Record LoadConfigOptions := {
  explicit_apiKey : option string;   (* apiKey *)
  envPath : option string
}.

(** The variable read from [process.env]. *)
Definition ELEVENLABS_API_KEY : string := "ELEVENLABS_API_KEY".

(** [fs.existsSync(path)] on a file system given as path to content. *)
Definition existsSync (fs : gmap string string) (path : string) : bool :=
  bool_decide (is_Some (fs !! path)).

Section LoadConfig.
(** [dotenv.parse]: the text of an env file to the variables it defines. *)
Variable parse : string → gmap string string.
(** [path.join(__dirname, '../../.env')]. *)
Variable defaultEnvPath : string.

(** [dotenv.config({ path })]: reads and parses the file and assigns to
    [process.env] each variable that [process.env] does not own yet, so on
    a common key the left operand, the process environment, wins.  A file
    that cannot be read leaves the environment as it is. *)
Definition dotenv_config (fs : gmap string string) (path : string)
    (env : gmap string string) : gmap string string :=
  match fs !! path with
  | Some src => env ∪ parse src
  | None => env
  end.

(** [loadConfig(options = {})] from the file system and [process.env];
    returns the outcome and [process.env] as the call leaves it. *)
Definition loadConfig (options : option LoadConfigOptions)
    (fs : gmap string string) (env : gmap string string)
    : Promise Config Thrown * gmap string string :=
  let options :=
    default {| explicit_apiKey := None; envPath := None |} options in
  match truthy_value (explicit_apiKey options) with
  | Some key => (Resolved {| apiKey := key |}, env)
  | None =>
    let envPath := or_else (envPath options) defaultEnvPath in
    let env :=
      if existsSync fs envPath then dotenv_config fs envPath env else env in
    match truthy_value (env !! ELEVENLABS_API_KEY) with
    | Some apiKey => (Resolved {| apiKey := apiKey |}, env)
    | None =>
      (Rejected (Error ("ELEVENLABS_API_KEY not found. " +:+
         "Set it via .env file, environment variable, or --api-key flag.")),
       env)
    end
  end.
End LoadConfig.

(** A reader of [KEY=VALUE] lines, one definition per line, a later line
    for the same key replacing an earlier one; it instantiates the parser
    in the examples. *)
Fixpoint split_at (c : ascii) (s : string) : string * option string :=
  match s with
  | EmptyString => (EmptyString, None)
  | String a rest =>
    if decide (a = c) then (EmptyString, Some rest)
    else let '(l, r) := split_at c rest in (String a l, r)
  end.

Fixpoint lines_from (fuel : nat) (s : string) : list string :=
  match fuel with
  | O => []
  | S fuel' =>
    match split_at "010"%char s with
    | (l, Some rest) => l :: lines_from fuel' rest
    | (l, None) => [l]
    end
  end.

Definition key_value_lines (src : string) : gmap string string :=
  foldl (λ m line,
           match split_at "="%char line with
           | (k, Some v) => <[k := v]> m
           | (_, None) => m
           end)
        ∅ (lines_from (S (String.length src)) src).

(** ** commands/list.ts *)

(** What a command leaves behind: the lines written by [console.log] and
    [console.error], and the status passed to [process.exit], if any. *)
Record Console := {
  stdout : list string;
  stderr : list string;
  exit_status : option Z
}.

(** [error instanceof Error ? error.message : String(error)]. *)
Definition error_text (e : Thrown) : string :=
  match e with
  | Error m => m
  | Propagated err => err_message err
  | TypeError m => m
  end.

Record ListCommandOptions := {
  recent : option Z;
  list_apiKey : string     (* apiKey *)
}.

Definition listCommand
    (axios_create : AxiosConfig → AxiosInstance ConversationListResponse)
    (options : ListCommandOptions) : Console :=
  let client := ElevenLabsClient axios_create (list_apiKey options) in
  let limit :=
    match recent options with
    | Some n => if bool_decide (n = 0) then 10 else n
    | None => 10
    end in
  match settled (listConversations client
                   (Some {| limit := Some limit; offset := Some 0 |})) with
  | Resolved result =>
    let out :=
      [LF +:+ "📋 Recent Conversations (showing " +:+
       ToString (Z.of_nat (length (conversations result))) +:+ "):" +:+ LF] in
    {| stdout :=
         forEach (λ (out : list string) conv index,
                    out ++ [ToString (Z.of_nat index + 1) +:+ ". " +:+
                              item_conversation_id conv;
                            "   Agent: " +:+ item_agent_id conv;
                            "   Created: " +:+ created_at conv;
                            ""])
                 (conversations result) out;
       stderr := [];
       exit_status := None |}
  | Rejected error =>
    {| stdout := [];
       stderr := ["✗ Error listing conversations: " +:+ error_text error];
       exit_status := Some 1 |}
  end.


(** ** commands/analyze.ts *)

(** [seconds] is read as a double; [/] rounds, [Math.floor] and [%] are
    exact; an infinity divides to itself and has no remainder. *)
Definition formatDuration (seconds : Z) : string :=
  let seconds := binary64 (inject_Z seconds) in
  if is_infinite seconds then
    (if Qlt_le_dec seconds 0 then "-Infinity" else "Infinity") +:+ "m NaNs"
  else
    let mins := Qfloor (binary64 (seconds / 60)) in  (* Math.floor(seconds / 60) *)
    let secs := Z.rem (Qfloor seconds) 60 in         (* seconds % 60 *)
    Number_toString mins +:+ "m " +:+ Number_toString secs +:+ "s".

(** The status markers and role labels, byte for byte as in the source. *)
Definition FAILED_MARK : string := "âŒ Failed".
Definition SUCCESS_MARK : string := "âœ… Success".
Definition AGENT_LABEL : string := "ðŸ¤– Agent".
Definition USER_LABEL : string := "ðŸ‘¤ User".
Definition ANALYZE_FAILURE : string := "âœ— Error analyzing conversation: ".

Section Analyze.
Context {Json : Type}.
(** [JSON.stringify] without indentation. *)
Variable JSON_stringify : Json → string.

(** [turn => turn.tool_calls && turn.tool_calls.length > 0]. *)
Definition has_tool_calls (turn : ConversationMessage Json) : bool :=
  match tool_calls turn with
  | Some calls => bool_decide (0 < length calls)%nat
  | None => false
  end.

(** The callback of [turn.tool_calls?.forEach]. *)
Definition append_tool_call (output : string) (toolCall : ToolCall Json)
    (_ : nat) : string :=
  let output := output +:+ "- **" +:+ name toolCall +:+ "**" +:+ LF in
  let output :=
    output +:+ "  - ID: `" +:+ tool_call_id toolCall +:+ "`" +:+ LF in
  output +:+ "  - Parameters: `" +:+ JSON_stringify (parameters toolCall)
         +:+ "`" +:+ LF.

(** The callback of [turn.tool_results.forEach]. *)
Definition append_tool_result (output : string) (result : ToolResult Json)
    (_ : nat) : string :=
  let status :=
    match truthy_value (error result) with
    | Some _ => FAILED_MARK
    | None => SUCCESS_MARK
    end in
  let output :=
    output +:+ "  - " +:+ status +:+ ": `" +:+ result_tool_call_id result
           +:+ "`" +:+ LF in
  match truthy_value (error result) with
  | Some e => output +:+ "    Error: " +:+ e +:+ LF
  | None => output
  end.

(** The callback of [toolCallTurns.forEach]. *)
Definition append_tool_call_turn (output : string)
    (turn : ConversationMessage Json) (index : nat) : string :=
  let output :=
    output +:+ "### Turn " +:+ ToString (Z.of_nat index + 1) +:+ " (" +:+
    ToString (time_in_call_secs turn) +:+ "s into call)" +:+ LF +:+ LF in
  let output :=
    match tool_calls turn with
    | Some calls => forEach append_tool_call calls output
    | None => output
    end in
  let output :=
    match tool_results turn with
    | Some results =>
      if bool_decide (0 < length results)%nat then
        forEach append_tool_result results
                (output +:+ LF +:+ "  **Results:**" +:+ LF)
      else output
    | None => output
    end in
  output +:+ LF.

Definition analyzeToolCalls (conversation : Conversation Json) : string :=
  let output := LF +:+ "## Tool Calls Analysis" +:+ LF +:+ LF in
  let toolCallTurns :=
    default [] (filter (λ turn, has_tool_calls turn)
                  <$> transcript conversation) in
  if bool_decide (length toolCallTurns = 0%nat) then
    output +:+ "_No tool calls detected_" +:+ LF
  else
    forEach append_tool_call_turn toolCallTurns output.

(** [m?.elapsed_time.toFixed(3)] for an optional latency. *)
Definition latency_cell (m : option LatencyMetric) : string :=
  or_else ((λ l, toFixed (elapsed_time l) 3) <$> m) "N/A".

(** The callback of [turnsWithMetrics.forEach]. *)
Definition append_metrics_row (output : string)
    (turn : ConversationMessage Json) (index : nat) : string :=
  let ttfb :=
    latency_cell (conversation_turn_metrics turn ≫= convai_llm_service_ttfb) in
  let ttfs :=
    latency_cell
      (conversation_turn_metrics turn ≫= convai_llm_service_ttf_sentence) in
  output +:+ "| " +:+ ToString (Z.of_nat index + 1) +:+ " | " +:+ ttfb
         +:+ " | " +:+ ttfs +:+ " |" +:+ LF.

Definition analyzeMetrics (conversation : Conversation Json) : string :=
  let output := LF +:+ "## Performance Metrics" +:+ LF +:+ LF in
  let turnsWithMetrics :=
    default [] (filter (λ turn, is_Some (conversation_turn_metrics turn))
                  <$> transcript conversation) in
  if bool_decide (length turnsWithMetrics = 0%nat) then
    output +:+ "_No metrics available_" +:+ LF
  else
    let output := output +:+ "| Turn | TTFB (s) | TTF Sentence (s) |" +:+ LF in
    let output := output +:+ "|------|----------|------------------|" +:+ LF in
    forEach append_metrics_row turnsWithMetrics output.

(** The callback of the last [conversation.transcript?.forEach]. *)
Definition append_transcript_turn (markdown : string)
    (turn : ConversationMessage Json) (_ : nat) : string :=
  let role :=
    match role turn with agent => AGENT_LABEL | user => USER_LABEL end in
  let markdown :=
    markdown +:+ "### " +:+ role +:+ " (" +:+
    ToString (time_in_call_secs turn) +:+ "s)" +:+ LF +:+ LF in
  markdown +:+ message turn +:+ LF +:+ LF.

(** The report that [analyzeCommand] builds between fetching the
    conversation and printing: the Markdown text, or the [TypeError] of
    reading [call_duration_secs] on a missing [metadata]. *)
Definition analyzeMarkdown (conversationId : string)
    (conversation : Conversation Json) : Promise string Thrown :=
  let markdown := "# Conversation Analysis: " +:+ conversationId +:+ LF +:+ LF in
  let markdown := markdown +:+ "## Summary" +:+ LF +:+ LF in
  let markdown :=
    markdown +:+ "- **Agent ID:** " +:+ agent_id conversation +:+ LF in
  let markdown :=
    markdown +:+ "- **Status:** " +:+ status conversation +:+ LF in
  match metadata conversation with
  | None =>
    Rejected (TypeError
      "Cannot read properties of undefined (reading 'call_duration_secs')")
  | Some md =>
    let markdown :=
      markdown +:+ "- **Duration:** " +:+
      formatDuration (call_duration_secs md) +:+ LF in
    let markdown :=
      markdown +:+ "- **Cost:** " +:+ ToString (cost md) +:+ " credits" +:+ LF in
    let markdown :=
      match truthy_value (call_successful <$> analysis conversation) with
      | Some verdict => markdown +:+ "- **Call Success:** " +:+ verdict +:+ LF
      | None => markdown
      end in
    let markdown := markdown +:+ LF in
    let markdown :=
      match truthy_value (transcript_summary <$> analysis conversation) with
      | Some summary =>
        (markdown +:+ "## Transcript Summary" +:+ LF +:+ LF)
        +:+ summary +:+ LF
      | None => markdown
      end in
    let markdown := markdown +:+ analyzeToolCalls conversation in
    let markdown := markdown +:+ analyzeMetrics conversation in
    let markdown := markdown +:+ LF +:+ "## Full Transcript" +:+ LF +:+ LF in
    Resolved
      match transcript conversation with
      | Some turns => forEach append_transcript_turn turns markdown
      | None => markdown
      end
  end.

Definition analyzeCommand
    (axios_create : AxiosConfig → AxiosInstance (Conversation Json))
    (conversationId : string) (apiKey : string) : Console :=
  let client := ElevenLabsClient axios_create apiKey in
  let failure (error : Thrown) :=
    {| stdout := [];
       stderr := [ANALYZE_FAILURE +:+ error_text error];
       exit_status := Some 1 |} in
  match settled (getConversation client conversationId) with
  | Resolved conversation =>
    match analyzeMarkdown conversationId conversation with
    | Resolved markdown =>
      {| stdout := [markdown]; stderr := []; exit_status := None |}
    | Rejected error => failure error
    end
  | Rejected error => failure error
  end.
End Analyze.

(** ** commands/get.ts and commands/audio.ts *)

(** What [fs.writeFileSync] is given: a string or a [Buffer]. *)
Inductive FileContent :=
| Text (text : string)
| Binary (bytes : list Byte.byte).

Record GetCommandOptions := {
  save : option bool;
  get_output : option string;      (* output *)
  get_apiKey : string              (* apiKey *)
}.

Record AudioCommandOptions := {
  download : option bool;
  audio_output : option string;    (* output *)
  audio_apiKey : string            (* apiKey *)
}.

Section FileCommands.
(** The file system and the [fs] and [path] functions the commands call.
    A synchronous [fs] call leaves a file system behind and may throw. *)
Context {FS : Type}.
Variable dirname : string → string.                       (* path.dirname *)
Variable fs_existsSync : FS → string → bool.
Variable fs_mkdirSync : string → FS → FS * option Thrown. (* recursive *)
Variable fs_writeFileSync : string → FileContent → FS → FS * option Thrown.

(** [if (!fs.existsSync(dir)) fs.mkdirSync(dir, { recursive: true });
     fs.writeFileSync(outputPath, content)], the statements that both
    commands run to save a file. *)
Definition ensure_dir_and_write (outputPath : string) (content : FileContent)
    (fs : FS) : FS * option Thrown :=
  let dir := dirname outputPath in
  let '(fs, thrown) :=
    if fs_existsSync fs dir then (fs, None) else fs_mkdirSync dir fs in
  match thrown with
  | Some error => (fs, Some error)
  | None => fs_writeFileSync outputPath content fs
  end.

Section GetCommand.
Context {Json : Type}.
(** [JSON.stringify(conversation, null, 2)]. *)
Variable JSON_stringify_indented : Conversation Json → string.

Definition getCommand
    (axios_create : AxiosConfig → AxiosInstance (Conversation Json))
    (conversationId : string) (options : GetCommandOptions) (fs : FS)
    : Console * FS :=
  let client := ElevenLabsClient axios_create (get_apiKey options) in
  let failure (error : Thrown) :=
    {| stdout := [];
       stderr := ["✗ Error fetching conversation: " +:+ error_text error];
       exit_status := Some 1 |} in
  match settled (getConversation client conversationId) with
  | Resolved conversation =>
    let output := JSON_stringify_indented conversation in
    if default false (save options)
       || bool_decide (is_Some (truthy_value (get_output options))) then
      let outputPath :=
        or_else (get_output options)
                ("./conversations/" +:+ conversationId +:+ ".json") in
      match ensure_dir_and_write outputPath (Text output) fs with
      | (fs, None) =>
        ({| stdout := ["✓ Conversation saved to: " +:+ outputPath];
            stderr := []; exit_status := None |}, fs)
      | (fs, Some error) => (failure error, fs)
      end
    else
      ({| stdout := [output]; stderr := []; exit_status := None |}, fs)
  | Rejected error => (failure error, fs)
  end.
End GetCommand.

Definition audioCommand
    (axios_create : AxiosConfig → AxiosInstance (list Byte.byte))
    (conversationId : string) (options : AudioCommandOptions) (fs : FS)
    : Console * FS :=
  let client := ElevenLabsClient axios_create (audio_apiKey options) in
  let failure (error : Thrown) :=
    {| stdout := [];
       stderr := ["✗ Error downloading audio: " +:+ error_text error];
       exit_status := Some 1 |} in
  match settled (getAudio client conversationId) with
  | Resolved audioBuffer =>
    let outputPath :=
      or_else (audio_output options)
              ("./audio/" +:+ conversationId +:+ ".wav") in
    match ensure_dir_and_write outputPath (Binary audioBuffer) fs with
    | (fs, None) =>
      ({| stdout :=
            ["✓ Audio saved to: " +:+ outputPath;
             "  Size: " +:+
             toFixed (Z.of_nat (length audioBuffer) # 1024) 2 +:+ " KB"];
          stderr := []; exit_status := None |}, fs)
    | (fs, Some error) => (failure error, fs)
    end
  | Rejected error => (failure error, fs)
  end.
End FileCommands.

(** ** index.ts *)

Section GetApiKey.
Variable parse : string → gmap string string.
Variable defaultEnvPath : string.

(** What the [catch] block of [getApiKey] does itself: the line it passes
    to [console.error] and the status it passes to [process.exit].  What
    [dotenv.config] writes on its own account while the file is loaded is
    not recorded here. *)
Record Exit := {
  console_error : string;
  process_exit : Z
}.

(** [getApiKey(cmdApiKey)]: the key, or the error line and the exit status
    of the [catch] block; with [process.env] as the call leaves it. *)
Definition getApiKey (cmdApiKey : option string)
    (fs env : gmap string string) : (string + Exit) * gmap string string :=
  match loadConfig parse defaultEnvPath
          (Some {| explicit_apiKey := cmdApiKey; envPath := None |}) fs env with
  | (Resolved config, env) => (inl (apiKey config), env)
  | (Rejected error, env) =>
    (inr {| console_error := "✗ Error: " +:+ error_text error;
            process_exit := 1 |}, env)
  end.
End GetApiKey.

(** ** Vocabulary of the statements *)

(** The concatenation of a list of pieces of text. *)
Definition join (pieces : list string) : string :=
  foldr String.append "" pieces.

(** A callback that only appends to the text it is given. *)
Definition Appends {A : Type} (callback : string → A → nat → string) : Prop :=
  ∀ prefix output x index,
    callback (prefix +:+ output) x index = prefix +:+ callback output x index.

(** The three operations of the client, for statements about all of them. *)
Inductive Operation :=
| GetConversation (conversationId : string)
| ListConversations (options : option ListConversationsOptions)
| GetAudio (conversationId : string).

Definition perform {D : Type} (client : AxiosInstance D) (op : Operation)
    : Call D :=
  match op with
  | GetConversation id => getConversation client id
  | ListConversations options => listConversations client options
  | GetAudio id => getAudio client id
  end.

(** What the tool calls and the tool results of one turn add to the
    report: the inner loops of [analyzeToolCalls], run on the empty text. *)
Section TurnBlocks.
Context {Json : Type}.
Variable JSON_stringify : Json → string.

Definition tool_calls_block (turn : ConversationMessage Json) : string :=
  match tool_calls turn with
  | Some calls => forEach (append_tool_call JSON_stringify) calls ""
  | None => ""
  end.

Definition tool_results_block (turn : ConversationMessage Json) : string :=
  match tool_results turn with
  | Some results =>
    if bool_decide (0 < length results)%nat then
      forEach append_tool_result results (LF +:+ "  **Results:**" +:+ LF)
    else ""
  | None => ""
  end.
End TurnBlocks.

(** The conversation [c] with [turns] as its transcript. *)
Definition with_transcript {Json : Type} (c : Conversation Json)
    (turns : option (list (ConversationMessage Json))) : Conversation Json :=
  {| conversation_id := conversation_id c; agent_id := agent_id c;
     status := status c; transcript := turns; metadata := metadata c;
     analysis := analysis c |}.

(** The text [s] does not contain the character [c]. *)
Fixpoint avoids (c : ascii) (s : string) : Prop :=
  match s with
  | EmptyString => True
  | String a rest => a ≠ c ∧ avoids c rest
  end.

(** ** Fixtures of the examples *)

(** A transport on which every request fails the same way. *)
Definition failing_with (e : TransportError) : AxiosInstance unit :=
  λ _, Rejected e.

Definition not_found : TransportError :=
  {| err_message := "Request failed with status code 404";
     response := Some {| http_status := 404; statusText := "Not Found" |} |}.

Definition unreachable : TransportError :=
  {| err_message := "getaddrinfo ENOTFOUND api.elevenlabs.io";
     response := None |}.

(** Five list items, most recent first. *)
Definition item (n : string) : ConversationListItem :=
  {| item_conversation_id := "conv_" +:+ n;
     item_agent_id := "agent_" +:+ n;
     created_at := "2025-10-1" +:+ n +:+ "T10:00:00Z";
     item_status := None |}.

Definition five_items : list ConversationListItem :=
  [item "5"; item "4"; item "3"; item "2"; item "1"].

(** A server that answers every list request with all five items. *)
Definition whole_list_server : AxiosInstance ConversationListResponse :=
  λ _, Resolved {| conversations := five_items |}.

(** A server that answers with the first [page_size] of the five items. *)
Definition paging_server : AxiosInstance ConversationListResponse :=
  λ request,
    match params <$> config request with
    | Some [(_, Some n)] =>
      Resolved {| conversations := take (Z.to_nat n) five_items |}
    | _ => Resolved {| conversations := five_items |}
    end.


(** An env file that defines the key as "C", and two process environments:
    one with the key set to "B", one with the key set to the empty string
    (as after [ELEVENLABS_API_KEY= node ...]). *)
Definition env_file_C : gmap string string :=
  {[ ".env" := "ELEVENLABS_API_KEY=C" ]}.

Definition process_env_B : gmap string string :=
  {[ "ELEVENLABS_API_KEY" := "B" ]}.

Definition process_env_blank : gmap string string :=
  {[ "ELEVENLABS_API_KEY" := "" ]}.


(** A transcript whose parameters are all the empty object. *)
Definition stringify_empty_object : unit → string := λ _, "{}".

Definition turn_plain : ConversationMessage unit :=
  {| role := user; message := "Where is my order?";
     tool_calls := None; tool_results := None;
     time_in_call_secs := 2; conversation_turn_metrics := None |}.

Definition turn_lookup : ConversationMessage unit :=
  {| role := agent; message := "Let me check.";
     tool_calls :=
       Some [{| tool_call_id := "call_1"; name := "lookup_order";
                parameters := tt |}];
     tool_results :=
       Some [{| result_tool_call_id := "call_1"; result := tt;
                error := Some "timeout" |}];
     time_in_call_secs := 5;
     conversation_turn_metrics :=
       Some {| convai_llm_service_ttfb := Some {| elapsed_time := 1 # 2 |};
               convai_llm_service_ttf_sentence := None |} |}.

Definition conversation_of (turns : list (ConversationMessage unit))
    : Conversation unit :=
  {| conversation_id := "conv_1"; agent_id := "agent_1"; status := "done";
     transcript := Some turns;
     metadata :=
       Some {| start_time_unix_secs := 1760522400; call_duration_secs := 105;
               cost := 12; termination_reason := None |};
     analysis := None |}.



(** A small disk for the examples: files by path and the set of
    directories; [mkdir] records the directory, a write needs the
    directory of the path. *)
Record Disk := {
  files : gmap string FileContent;
  dirs : gset string
}.

Fixpoint dirname_go (p : string) : option string :=
  match p with
  | EmptyString => None
  | String c rest =>
    match dirname_go rest with
    | Some d => Some (String c d)
    | None => if decide (c = "/"%char) then Some EmptyString else None
    end
  end.

(** The directory part of a path with no trailing or repeated slash. *)
Definition disk_dirname (p : string) : string :=
  match dirname_go p with
  | Some EmptyString => "/"
  | Some d => d
  | None => "."
  end.

Definition disk_exists (d : Disk) (p : string) : bool :=
  bool_decide (p ∈ dirs d) || bool_decide (is_Some (files d !! p)).

Definition disk_mkdir (p : string) (d : Disk) : Disk * option Thrown :=
  ({| files := files d; dirs := {[ p ]} ∪ dirs d |}, None).

Definition disk_write (p : string) (c : FileContent) (d : Disk)
    : Disk * option Thrown :=
  if bool_decide (disk_dirname p ∈ dirs d) then
    ({| files := <[p := c]> (files d); dirs := dirs d |}, None)
  else (d, Some (Error ("ENOENT: no such file or directory, open '" +:+ p +:+ "'"))).

(** A disk on which no directory can be made. *)
Definition readonly_mkdir (p : string) (d : Disk) : Disk * option Thrown :=
  (d, Some (Error ("EACCES: permission denied, mkdir '" +:+ p +:+ "'"))).

Definition empty_disk : Disk := {| files := ∅; dirs := {[ "." ]} |}.

Definition three_bytes : list Byte.byte := [Byte.x52; Byte.x49; Byte.x46].

Definition audio_server : AxiosInstance (list Byte.byte) :=
  λ _, Resolved three_bytes.

Definition conversation_server : AxiosInstance (Conversation unit) :=
  λ _, Resolved (conversation_of [turn_plain; turn_lookup]).

Definition stringify_id_only : Conversation unit → string :=
  λ c, "{ id: " +:+ conversation_id c +:+ " }".

(** A turn that has a failed tool result but no tool call. *)
Definition turn_results_only : ConversationMessage unit :=
  {| role := agent; message := "One moment.";
     tool_calls := None;
     tool_results :=
       Some [{| result_tool_call_id := "call_0"; result := tt;
                error := Some "boom" |}];
     time_in_call_secs := 3; conversation_turn_metrics := None |}.

Definition disk_read (d : Disk) (p : string) : option FileContent :=
  files d !! p.

(** A turn whose first-byte latency is 10^21 seconds. *)
Definition turn_slow : ConversationMessage unit :=
  {| role := agent; message := "Still here.";
     tool_calls := None; tool_results := None;
     time_in_call_secs := 9;
     conversation_turn_metrics :=
       Some {| convai_llm_service_ttfb :=
                 Some {| elapsed_time := inject_Z (10 ^ 21) |};
               convai_llm_service_ttf_sentence := None |} |}.

(** * Properties *)

(** ** Text *)

Lemma append_cons (ch : ascii) (a b : string) :
  String ch a +:+ b = String ch (a +:+ b).
Proof. reflexivity. Qed.

Lemma append_assoc (a b c : string) : (a +:+ b) +:+ c = a +:+ (b +:+ c).
Proof.
  induction a as [|ch a IH]; [done |].
  by rewrite !append_cons, IH.
Qed.

Lemma append_empty_r (a : string) : a +:+ "" = a.
Proof.
  induction a as [|ch a IH]; [done |].
  by rewrite append_cons, IH.
Qed.

Lemma length_append (a b : string) :
  String.length (a +:+ b) = (String.length a + String.length b)%nat.
Proof.
  induction a as [|ch a IH]; [done |].
  rewrite append_cons. simpl. by rewrite IH.
Qed.

Lemma join_app (l1 l2 : list string) : join (l1 ++ l2) = join l1 +:+ join l2.
Proof.
  unfold join. induction l1 as [|s l1 IH]; simpl; [done |].
  rewrite IH. symmetry. apply append_assoc.
Qed.

(** A digit is one character. *)
Lemma digit_length (d : Z) : 0 ≤ d < 10 → String.length (pretty d) = 1%nat.
Proof.
  intros Hd.
  assert (d = 0 ∨ d = 1 ∨ d = 2 ∨ d = 3 ∨ d = 4 ∨ d = 5 ∨ d = 6 ∨ d = 7
          ∨ d = 8 ∨ d = 9) as Hcases by lia.
  repeat destruct Hcases as [-> | Hcases]; try subst d; reflexivity.
Qed.

Lemma fraction_digits_length (f : nat) (k : Z) :
  String.length (fraction_digits f k) = f.
Proof.
  revert k; induction f as [|f IH]; intros k; simpl; [done |].
  rewrite length_append, IH, digit_length; [lia |].
  apply Z.mod_pos_bound; lia.
Qed.

(** ** forEach over an appending callback *)

Lemma forEach_from_prefix {A : Type} (callback : string → A → nat → string)
    (Hcb : Appends callback) (l : list A) :
  ∀ index prefix output,
    forEach_from callback index l (prefix +:+ output)
    = prefix +:+ forEach_from callback index l output.
Proof.
  induction l as [|x l IH]; intros index prefix output; simpl; [done |].
  by rewrite Hcb, IH.
Qed.

Lemma forEach_from_join {A : Type} (callback : string → A → nat → string)
    (Hcb : Appends callback) (l : list A) :
  ∀ index output,
    forEach_from callback index l output
    = output +:+ join (imap (λ j x, callback "" x (index + j)%nat) l).
Proof.
  induction l as [|x l IH]; intros index output; simpl.
  - by rewrite append_empty_r.
  - rewrite IH. rewrite <- (append_empty_r output) at 1.
    rewrite Hcb, append_assoc, Nat.add_0_r. do 3 f_equal.
    apply imap_ext; intros j y _; simpl. f_equal; lia.
Qed.

Lemma forEach_join {A : Type} (callback : string → A → nat → string)
    (Hcb : Appends callback) (l : list A) (output : string) :
  forEach callback l output
  = output +:+ join (imap (λ j x, callback "" x j) l).
Proof. unfold forEach. by rewrite forEach_from_join. Qed.

(** ** Doubles *)

Section Doubles.
#[local] Open Scope Q_scope.

Lemma round_half_even_proper (x y : Q) :
  x == y -> round_half_even x = round_half_even y.
Proof.
  intros Hxy. unfold round_half_even. cbv zeta.
  rewrite (Qfloor_comp _ _ Hxy).
  assert (x - inject_Z (Qfloor y) == y - inject_Z (Qfloor y)) as Hd
    by (rewrite Hxy; reflexivity).
  by rewrite (Qcompare_comp _ _ Hd (1 # 2) (1 # 2) (Qeq_refl _)).
Qed.

Lemma ilog2_proper (x y : Q) : x == y -> ilog2 x = ilog2 y.
Proof.
  intros Hxy. unfold ilog2.
  assert (Qle_bool 1 x = Qle_bool 1 y) as ->.
  { apply eq_true_iff_eq. rewrite !Qle_bool_iff. by rewrite Hxy. }
  rewrite (Qfloor_comp _ _ Hxy).
  assert (/ x == / y) as Hinv by (by rewrite Hxy).
  by rewrite (Qceiling_comp _ _ Hinv).
Qed.

Lemma binary64_proper (x y : Q) : x == y -> binary64 x = binary64 y.
Proof.
  intros Hxy. unfold binary64.
  assert (Qeq_bool x 0 = Qeq_bool y 0) as ->.
  { apply eq_true_iff_eq. rewrite !Qeq_bool_iff. by rewrite Hxy. }
  destruct (Qeq_bool y 0); [done |]. cbv zeta.
  assert (Qabs x == Qabs y) as Habs by (by rewrite Hxy).
  rewrite (ilog2_proper _ _ Habs).
  set (e := Z.max (ilog2 (Qabs y) - 52) (-1074)).
  destruct (decide (0 ≤ e)%Z).
  - rewrite (round_half_even_proper (x / inject_Z (2 ^ e)) (y / inject_Z (2 ^ e)));
      [done | by rewrite Hxy].
  - rewrite (round_half_even_proper (x * inject_Z (2 ^ (- e))) (y * inject_Z (2 ^ (- e))));
      [done | by rewrite Hxy].
Qed.

Lemma round_half_even_integer (q : Q) (z : Z) :
  q == inject_Z z -> round_half_even q = z.
Proof.
  intros Hq. rewrite (round_half_even_proper _ _ Hq).
  unfold round_half_even. cbv zeta. rewrite Qfloor_Z.
  assert ((inject_Z z - inject_Z z ?= 1 # 2) = Lt) as ->; [| done].
  apply (proj1 (Qlt_alt _ _)). lra.
Qed.

Lemma round_half_even_bound (q : Q) :
  inject_Z (round_half_even q) - q <= 1 # 2 /\
  q - inject_Z (round_half_even q) <= 1 # 2.
Proof.
  unfold round_half_even. cbv zeta.
  pose proof (Qfloor_le q) as Hle. pose proof (Qlt_floor q) as Hlt.
  rewrite inject_Z_plus in Hlt.
  destruct (q - inject_Z (Qfloor q) ?= 1 # 2) eqn:Hc.
  - apply (proj2 (Qeq_alt _ _)) in Hc.
    destruct (Z.even (Qfloor q)); rewrite ?inject_Z_plus;
      change (inject_Z 1) with 1 in *; split; lra.
  - apply (proj2 (Qlt_alt _ _)) in Hc.
    change (inject_Z 1) with 1 in *. split; lra.
  - apply (proj2 (Qgt_alt _ _)) in Hc. rewrite inject_Z_plus.
    change (inject_Z 1) with 1 in *. split; lra.
Qed.

Lemma ilog2_lt (a : Q) (K : Z) :
  (1 <= K)%Z -> 0 < a -> a < inject_Z (2 ^ K) -> (ilog2 a < K)%Z.
Proof.
  intros HK Hpos Hlt. unfold ilog2.
  destruct (Qle_bool 1 a) eqn:Hone.
  - apply Qle_bool_iff in Hone.
    assert (1 <= Qfloor a)%Z as Hfloor.
    { apply Qfloor_resp_le in Hone. exact Hone. }
    apply Z.log2_lt_pow2; [lia |].
    rewrite Zlt_Qlt. eapply Qle_lt_trans; [apply Qfloor_le | done].
  - pose proof (Z.log2_up_nonneg (Qceiling (/ a))). lia.
Qed.

Lemma Qabs_pos (x : Q) : ~ x == 0 -> 0 < Qabs x.
Proof. intros Hx. apply Qabs_case; intros Hsign; lra. Qed.

Lemma round_scaled_integer (s M : Z) :
  round_half_even (inject_Z s * inject_Z M) = (s * M)%Z.
Proof. apply round_half_even_integer. by rewrite inject_Z_mult. Qed.

Lemma binary64_integer (s : Z) :
  (Z.abs s < 2 ^ 53)%Z -> binary64 (inject_Z s) == inject_Z s.
Proof.
  intros Hs. unfold binary64.
  destruct (Qeq_bool (inject_Z s) 0) eqn:Hzero.
  { apply Qeq_bool_iff in Hzero. by rewrite Hzero. }
  apply Qeq_bool_neq in Hzero. cbv zeta.
  assert (ilog2 (Qabs (inject_Z s)) < 53)%Z as Hlog.
  { apply ilog2_lt; [lia | |].
    - by apply Qabs_pos.
    - change (Qabs (inject_Z s)) with (inject_Z (Z.abs s)).
      by rewrite <- Zlt_Qlt. }
  set (e := Z.max (ilog2 (Qabs (inject_Z s)) - 52) (-1074)).
  assert (e <= 0)%Z as He by lia.
  destruct (decide (0 ≤ e)%Z) as [Hnn | Hneg].
  - assert (e = 0%Z) as -> by lia.
    rewrite (round_half_even_integer _ s).
    + change (2 ^ 0)%Z with 1%Z. by rewrite Z.mul_1_r.
    + change (inject_Z (2 ^ 0)) with 1. field.
  - rewrite round_scaled_integer.
    assert (0 < 2 ^ (- e))%Z as Hpow by (apply Z.pow_pos_nonneg; lia).
    unfold Qeq. simpl. rewrite Z2Pos.id by done. lia.
Qed.

Lemma binary64_div60_floor (s : Z) :
  (Z.abs s < 2 ^ 53)%Z ->
  Qfloor (binary64 (inject_Z s / 60)) = (s / 60)%Z.
Proof.
  intros Hs.
  destruct (decide (s = 0%Z)) as [-> | Hnz]; [reflexivity |].
  unfold Qdiv. change (/ 60) with (1 # 60).
  set (x := inject_Z s * (1 # 60)).
  assert (~ x == 0) as Hx.
  { subst x. intros Hzero.
    assert (inject_Z s == inject_Z 0) as Hs0
      by (change (inject_Z 0) with 0; apply Qle_antisym; lra).
    rewrite inject_Z_injective in Hs0. done. }
  assert (inject_Z (- 2 ^ 53) < inject_Z s /\ inject_Z s < inject_Z (2 ^ 53))
    as [Hlo Hhi] by (rewrite <- !Zlt_Qlt; lia).
  change (inject_Z (- 2 ^ 53)) with (- 9007199254740992) in Hlo.
  change (inject_Z (2 ^ 53)) with 9007199254740992 in Hhi.
  assert (ilog2 (Qabs x) < 48)%Z as Hlog.
  { apply ilog2_lt; [lia | by apply Qabs_pos |].
    change (inject_Z (2 ^ 48)) with 281474976710656.
    subst x. apply Qabs_case; intros _; lra. }
  unfold binary64.
  destruct (Qeq_bool x 0) eqn:Hzero; [by apply Qeq_bool_iff in Hzero |].
  cbv zeta.
  set (e := Z.max (ilog2 (Qabs x) - 52) (-1074)).
  assert (e <= -5)%Z as He by lia.
  destruct (decide (0 ≤ e)%Z) as [Hnn | _]; [lia |].
  set (M := (2 ^ (- e))%Z).
  assert (32 <= M)%Z as HM.
  { subst M. change 32%Z with (2 ^ 5)%Z. apply Z.pow_le_mono_r; lia. }
  destruct (round_half_even_bound (x * inject_Z M)) as [Hup Hdown].
  set (R := round_half_even (x * inject_Z M)) in *.
  assert (x * inject_Z M == inject_Z (s * M) * (1 # 60)) as Hscaled.
  { subst x. rewrite inject_Z_mult. ring. }
  rewrite Hscaled in Hup, Hdown.
  assert (60 * R - s * M <= 30 /\ s * M - 60 * R <= 30)%Z as [Hu Hd].
  { rewrite !Zle_Qle.
    unfold Z.sub. rewrite !inject_Z_plus, !inject_Z_opp, !inject_Z_mult.
    rewrite <- (inject_Z_mult s M).
    change (inject_Z 60) with 60. change (inject_Z 30) with 30.
    split; lra. }
  simpl. rewrite Z2Pos.id by lia.
  pose proof (Z.div_mod s 60 ltac:(lia)) as Hdm.
  pose proof (Z.mod_pos_bound s 60 ltac:(lia)) as Hr.
  set (q := (s / 60)%Z) in *. set (r := (s mod 60)%Z) in *.
  symmetry. apply (Z.div_unique R M q (R - q * M)); [| lia].
  left.
  assert (s * M = 60 * (q * M) + r * M)%Z as HT by (rewrite Hdm; ring).
  assert (0 <= r * M)%Z by nia.
  assert (r * M <= 59 * M)%Z by nia.
  assert (r = 0 \/ M <= r * M)%Z as [Hr0 | HrM] by nia.
  - rewrite Hr0 in HT. lia.
  - lia.
Qed.

Lemma binary64_integer_floor (s : Z) :
  (Z.abs s < 2 ^ 53)%Z -> Qfloor (binary64 (inject_Z s)) = s.
Proof.
  intros Hs. rewrite (Qfloor_comp _ _ (binary64_integer s Hs)).
  apply Qfloor_Z.
Qed.

Lemma binary64_integer_finite (s : Z) :
  (Z.abs s < 2 ^ 53)%Z -> is_infinite (binary64 (inject_Z s)) = false.
Proof.
  intros Hs. unfold is_infinite.
  destruct (Qle_bool _ _) eqn:Hle; [| done].
  apply Qle_bool_iff in Hle.
  rewrite (binary64_integer s Hs) in Hle.
  change (Qabs (inject_Z s)) with (inject_Z (Z.abs s)) in Hle.
  rewrite <- Zle_Qle in Hle.
  pose proof (Z.pow_le_mono_r 2 53 1024 ltac:(lia) ltac:(lia)). lia.
Qed.
End Doubles.

Lemma Number_toString_safe (z : Z) :
  Z.abs z ≤ 2 ^ 53 → Number_toString z = pretty z.
Proof. intros Hz. unfold Number_toString. by rewrite decide_True. Qed.

(** Within the safe integers the duration is computed exactly. *)
Lemma formatDuration_safe (s : Z) :
  Z.abs s < 2 ^ 53 →
  formatDuration s = pretty (s / 60) +:+ "m " +:+ pretty (Z.rem s 60) +:+ "s".
Proof.
  intros Hs. unfold formatDuration. cbv zeta.
  rewrite (binary64_integer_finite s Hs), (binary64_integer_floor s Hs).
  rewrite (binary64_proper (binary64 (inject_Z s) / 60) (inject_Z s / 60))
    by (by rewrite (binary64_integer s Hs)).
  rewrite (binary64_div60_floor s Hs).
  rewrite !Number_toString_safe; [done | |].
  - Z.quot_rem_to_equations. lia.
  - Z.div_mod_to_equations. lia.
Qed.

(** ** formatDuration *)

(** C7, as the claim states it, fails: 67553994410557496 is a double, its
    quotient by 60 is 1125899906842624 and its remainder 56, but the
    division by 60 rounds up to the next whole number and the text shows
    1125899906842625 minutes. *)
Lemma formatDuration_beyond_safe_integers :
  0 ≤ 67553994410557496 ∧
  Qeq (binary64 (inject_Z 67553994410557496)) (inject_Z 67553994410557496) ∧
  67553994410557496 = 60 * 1125899906842624 + 56 ∧
  formatDuration 67553994410557496 = "1125899906842625m 56s" ∧
  formatDuration 67553994410557496 ≠ "1125899906842624m 56s".
Proof. by vm_compute. Qed.

(** C7, amended.  For a non-negative whole number of seconds [s] below
    2^53 (a safe integer), the duration is the text [<m>m <r>s] where [m]
    is the integer quotient of [s] by 60 and [r] the remainder
    ([s = 60 m + r], [0 <= r < 60]), each written in decimal without
    padding (a remainder below ten is a single character); and 105, 0 and
    59 give "1m 45s", "0m 0s" and "0m 59s". *)
Theorem formatDuration_quotient_remainder (s : Z)
    (Hs : 0 ≤ s) (Hsafe : s < 2 ^ 53) :
  (∃ m r : Z,
      s = 60 * m + r ∧ 0 ≤ m ∧ 0 ≤ r < 60 ∧
      formatDuration s = pretty m +:+ "m " +:+ pretty r +:+ "s" ∧
      (r < 10 → String.length (pretty r) = 1%nat)) ∧
  formatDuration 105 = "1m 45s" ∧
  formatDuration 0 = "0m 0s" ∧
  formatDuration 59 = "0m 59s".
Proof.
  split; [| by vm_compute].
  exists (s `div` 60), (s `mod` 60).
  pose proof (Z.mod_pos_bound s 60 ltac:(lia)) as Hr.
  pose proof (Z.div_mod s 60 ltac:(lia)) as Hdm.
  split; [exact Hdm |].
  split; [apply Z.div_pos; lia |].
  split; [exact Hr |].
  split.
  - rewrite formatDuration_safe by lia.
    by rewrite Z.rem_mod_nonneg by lia.
  - intros Hlt. apply digit_length. lia.
Qed.

Lemma formatDuration_quotient_remainder_witness :
  0 ≤ 125 ∧ 125 < 2 ^ 53 ∧ formatDuration 125 = "2m 5s".
Proof.
  split; [lia |]. split; [lia |].
  destruct (formatDuration_quotient_remainder 125 ltac:(lia) ltac:(lia))
    as [(m & r & Hs & Hm & Hr & Hfmt & _) _].
  assert (m = 2) as -> by lia. assert (r = 5) as -> by lia.
  exact Hfmt.
Defined.

Lemma forEach_from_concat {A B : Type} (callback : list B → A → nat → list B)
    (g : A → nat → list B)
    (Hcb : ∀ out x index, callback out x index = out ++ g x index)
    (l : list A) :
  ∀ index out,
    forEach_from callback index l out
    = out ++ concat (imap (λ j x, g x (index + j)%nat) l).
Proof.
  induction l as [|x l IH]; intros index out; simpl.
  - by rewrite app_nil_r.
  - rewrite IH, Hcb, <- app_assoc, Nat.add_0_r. do 3 f_equal.
    apply imap_ext; intros j y _; simpl. f_equal; lia.
Qed.

(** ** The client *)

(** C1.  Whichever of the three operations is performed: when the HTTP
    call is rejected with an error object carrying a response, the
    operation is rejected with an [Error] whose message is exactly
    "API Error: <status> <statusText>" (a 404 "Not Found" response gives
    exactly "API Error: 404 Not Found"); when the error object carries no
    response, the operation is rejected with that same error object. *)
Theorem client_failure_mapping {D : Type} (client : AxiosInstance D)
    (op : Operation) (e : TransportError)
    (Hfail : ∀ request,
        request ∈ sent (perform client op) → client request = Rejected e) :
  (∀ r, response e = Some r →
        settled (perform client op)
        = Rejected (Error ("API Error: " +:+ pretty (http_status r) +:+ " "
                           +:+ statusText r))) ∧
  (response e = Some {| http_status := 404; statusText := "Not Found" |} →
   settled (perform client op) = Rejected (Error "API Error: 404 Not Found")) ∧
  (response e = None → settled (perform client op) = Rejected (Propagated e)).
Proof.
  assert (∀ r, response e = Some r →
            settled (perform client op)
            = Rejected (Error ("API Error: " +:+ pretty (http_status r)
                               +:+ " " +:+ statusText r))) as Hresp.
  { intros r Hr.
    destruct op; simpl in *;
      (rewrite Hfail by apply list_elem_of_singleton, eq_refl);
      by rewrite Hr. }
  split; [exact Hresp |]. split.
  - intros H404. by rewrite (Hresp _ H404).
  - intros Hnone.
    destruct op; simpl in *;
      (rewrite Hfail by apply list_elem_of_singleton, eq_refl);
      by rewrite Hnone.
Qed.

Lemma client_failure_mapping_witness :
  settled (perform (failing_with not_found) (GetAudio "conv_invalid"))
  = Rejected (Error "API Error: 404 Not Found") ∧
  settled (perform (failing_with unreachable) (ListConversations None))
  = Rejected (Propagated unreachable).
Proof.
  split.
  - apply (client_failure_mapping (failing_with not_found)
             (GetAudio "conv_invalid") not_found); [| reflexivity].
    intros request _. reflexivity.
  - apply (client_failure_mapping (failing_with unreachable)
             (ListConversations None) unreachable); [| reflexivity].
    intros request _. reflexivity.
Defined.

(** C10.  [listConversations] passes to the transport one request, a GET
    of the list path whose only query parameter is [page_size], holding
    the [limit] of the options, and settles as the transport answers that
    very request: with the data of the answer, or with the failure mapped
    as in C1.  [offset] is not part of the request: whatever the
    transport, two calls whose options agree on [limit] send the same
    request and settle the same way, and the outcome depends on the
    transport only through its answer to that request. *)
Theorem listConversations_ignores_offset {D : Type} (client : AxiosInstance D)
    (options options' : option ListConversationsOptions)
    (Hlimit : options ≫= limit = options' ≫= limit) :
  sent (listConversations client options)
  = [ {| url := "/v1/convai/conversations";
         config := Some {| params := [("page_size", options ≫= limit)];
                           responseType := None |} |} ] ∧
  settled (listConversations client options)
  = match client {| url := "/v1/convai/conversations";
                    config :=
                      Some {| params := [("page_size", options ≫= limit)];
                              responseType := None |} |} with
    | Resolved data => Resolved data
    | Rejected error =>
      match response error with
      | Some r =>
        Rejected (Error ("API Error: " +:+ pretty (http_status r) +:+ " "
                         +:+ statusText r))
      | None => Rejected (Propagated error)
      end
    end ∧
  (∀ client' : AxiosInstance D,
      client' {| url := "/v1/convai/conversations";
                 config :=
                   Some {| params := [("page_size", options' ≫= limit)];
                           responseType := None |} |}
      = client {| url := "/v1/convai/conversations";
                  config :=
                    Some {| params := [("page_size", options ≫= limit)];
                            responseType := None |} |} →
      settled (listConversations client' options')
      = settled (listConversations client options)) ∧
  listConversations client options = listConversations client options'.
Proof.
  split; [reflexivity |]. split; [reflexivity |]. split.
  - intros client' Hsame. unfold listConversations; simpl. by rewrite Hsame.
  - unfold listConversations. by rewrite Hlimit.
Qed.

Lemma listConversations_ignores_offset_witness :
  listConversations paging_server (Some {| limit := Some 2; offset := Some 0 |})
  = listConversations paging_server (Some {| limit := Some 2; offset := Some 40 |}) ∧
  sent (listConversations paging_server
          (Some {| limit := Some 2; offset := Some 40 |}))
  = [ {| url := "/v1/convai/conversations";
         config := Some {| params := [("page_size", Some 2)];
                           responseType := None |} |} ] ∧
  settled (listConversations paging_server
             (Some {| limit := Some 2; offset := Some 40 |}))
  = Resolved {| conversations := [item "5"; item "4"] |} ∧
  settled (listConversations paging_server
             (Some {| limit := Some 3; offset := Some 40 |}))
  = Resolved {| conversations := [item "5"; item "4"; item "3"] |}.
Proof.
  destruct (listConversations_ignores_offset paging_server
              (Some {| limit := Some 2; offset := Some 0 |})
              (Some {| limit := Some 2; offset := Some 40 |}) eq_refl)
    as (Hsent & Hsettled & _ & Hsame).
  destruct (listConversations_ignores_offset paging_server
              (Some {| limit := Some 3; offset := Some 40 |})
              (Some {| limit := Some 3; offset := None |}) eq_refl)
    as (_ & Hthree & _ & _).
  split; [exact Hsame |].
  split; [by rewrite <- Hsame, Hsent |].
  split; [by rewrite <- Hsame, Hsettled |].
  by rewrite Hthree.
Defined.

(** C3, as the claim states it, fails: asked for at most two items of a
    server whose response holds five, [listConversations] returns the five
    and the list command prints the five. *)
Lemma listConversations_limit_not_enforced :
  ∃ result,
    settled (listConversations whole_list_server
               (Some {| limit := Some 2; offset := Some 0 |}))
    = Resolved result ∧
    length (conversations result) = 5%nat ∧
    ¬ (Z.of_nat (length (conversations result)) ≤ 2) ∧
    length (stdout (listCommand (λ _, whole_list_server)
                      {| recent := Some 2; list_apiKey := "key" |}))
    = 21%nat.
Proof.
  exists {| conversations := five_items |}.
  split; [reflexivity |]. split; [reflexivity |]. split; [| reflexivity].
  simpl. lia.
Qed.

(** C3, amended.  [listConversations] with limit [n] asks the server for a
    page of size [n] and returns the server's response as it is: the same
    items in the same order, nothing sorted, dropped, merged or cut; the
    list command prints one numbered entry per returned item, in that
    order.  The result therefore has at most [n] items when, and only
    when, the server's response has. *)
Theorem listConversations_returns_server_page
    (client : AxiosInstance ConversationListResponse) (n : Z)
    (off : option Z) (page : ConversationListResponse)
    (Hserver :
       client {| url := "/v1/convai/conversations";
                 config := Some {| params := [("page_size", Some n)];
                                   responseType := None |} |}
       = Resolved page) :
  settled (listConversations client (Some {| limit := Some n; offset := off |}))
  = Resolved page ∧
  ∀ axios_create key,
    n ≠ 0 → ElevenLabsClient axios_create key = client →
    listCommand axios_create {| recent := Some n; list_apiKey := key |}
    = {| stdout :=
           (LF +:+ "📋 Recent Conversations (showing " +:+
            pretty (Z.of_nat (length (conversations page))) +:+ "):" +:+ LF)
           :: concat (imap (λ i conv,
                              [pretty (Z.of_nat i + 1) +:+ ". " +:+
                                 item_conversation_id conv;
                               "   Agent: " +:+ item_agent_id conv;
                               "   Created: " +:+ created_at conv;
                               ""])
                           (conversations page));
         stderr := [];
         exit_status := None |}.
Proof.
  split.
  - simpl. by rewrite Hserver.
  - intros axios_create key Hn Hclient.
    unfold listCommand. cbn [list_apiKey recent]. rewrite Hclient. simpl.
    rewrite bool_decide_eq_false_2 by done.
    rewrite Hserver. f_equal.
    unfold forEach.
    rewrite (forEach_from_concat _
               (λ conv index,
                  [ToString (Z.of_nat index + 1) +:+ ". " +:+
                     item_conversation_id conv;
                   "   Agent: " +:+ item_agent_id conv;
                   "   Created: " +:+ created_at conv;
                   ""])) by done.
    reflexivity.
Qed.

Lemma listConversations_returns_server_page_witness :
  settled (listConversations paging_server
             (Some {| limit := Some 2; offset := Some 0 |}))
  = Resolved {| conversations := [item "5"; item "4"] |} ∧
  stdout (listCommand (λ _, paging_server)
            {| recent := Some 2; list_apiKey := "key" |})
  = [LF +:+ "📋 Recent Conversations (showing 2):" +:+ LF;
     "1. conv_5"; "   Agent: agent_5"; "   Created: 2025-10-15T10:00:00Z"; "";
     "2. conv_4"; "   Agent: agent_4"; "   Created: 2025-10-14T10:00:00Z"; ""].
Proof.
  pose proof (listConversations_returns_server_page paging_server 2 (Some 0)
                {| conversations := [item "5"; item "4"] |} eq_refl)
    as [Hpage Hcommand].
  split; [exact Hpage |].
  rewrite (Hcommand (λ _, paging_server) "key"); [reflexivity | lia |].
  reflexivity.
Defined.

(** ** The configuration resolver *)

Lemma truthy_value_Some (v : option string) (s : string) :
  truthy_value v = Some s ↔ v = Some s ∧ s ≠ "".
Proof.
  unfold truthy_value, truthy. destruct v as [t|]; simpl.
  - case_bool_decide as Ht; intuition congruence.
  - intuition congruence.
Qed.

Lemma truthy_value_None (v : option string) :
  truthy_value v = None ↔ v = None ∨ v = Some "".
Proof.
  unfold truthy_value, truthy. destruct v as [t|]; simpl.
  - case_bool_decide as Ht; intuition congruence.
  - intuition congruence.
Qed.

Section LoadConfigProperties.
Variable parse : string → gmap string string.
Variable defaultEnvPath : string.

(** The process environment after the merge of the env file at [path]. *)
Lemma loadConfig_unfold (options : option LoadConfigOptions)
    (fs env : gmap string string) :
  loadConfig parse defaultEnvPath options fs env
  = match truthy_value (options ≫= explicit_apiKey) with
    | Some key => (Resolved {| apiKey := key |}, env)
    | None =>
      let merged :=
        match fs !! or_else (options ≫= envPath) defaultEnvPath with
        | Some src => env ∪ parse src
        | None => env
        end in
      match truthy_value (merged !! ELEVENLABS_API_KEY) with
      | Some key => (Resolved {| apiKey := key |}, merged)
      | None =>
        (Rejected (Error
           "ELEVENLABS_API_KEY not found. Set it via .env file, environment variable, or --api-key flag."),
         merged)
      end
    end.
Proof.
  unfold loadConfig, existsSync, dotenv_config.
  destruct options as [[explicit path]|]; simpl;
    repeat (case_match; simplify_eq/=; try done);
    repeat case_bool_decide; try done;
    match goal with
    | H : ¬ is_Some (?m !! ?k), E : ?m !! ?k = Some _ |- _ =>
      rewrite E in H; by destruct H
    | H : is_Some (?m !! ?k), E : ?m !! ?k = None |- _ =>
      rewrite E in H; by destruct H as [? ?]
    | _ => idtac
    end.
Qed.

Lemma merged_lookup (env file : gmap string string) (k : string) :
  (env ∪ file) !! k = match env !! k with Some v => Some v | None => file !! k end.
Proof.
  rewrite lookup_union. destruct (env !! k), (file !! k); done.
Qed.

Lemma merged_key (fs env : gmap string string) (path : string) :
  match fs !! path with
  | Some src => env ∪ parse src
  | None => env
  end !! ELEVENLABS_API_KEY
  = match env !! ELEVENLABS_API_KEY with
    | Some v => Some v
    | None => fs !! path ≫= λ src, parse src !! ELEVENLABS_API_KEY
    end.
Proof.
  destruct (fs !! path) as [src|]; simpl.
  - apply merged_lookup.
  - by destruct (env !! ELEVENLABS_API_KEY).
Qed.

(** C2, amended.  A non-empty explicit key is returned whatever the file
    system and the process environment hold, and the environment is left
    as it was.  Without it: a process environment variable set to a
    non-empty value is returned, whatever the env file defines; a variable
    missing from the process environment is taken from an existing env
    file that defines it with a non-empty value.  The merge keeps every
    variable that the process environment already holds. *)
Theorem loadConfig_priority (options : option LoadConfigOptions)
    (fs env : gmap string string) :
  let explicit := options ≫= explicit_apiKey in
  let path := or_else (options ≫= envPath) defaultEnvPath in
  (∀ a, explicit = Some a → a ≠ "" →
        ∀ fs' env', loadConfig parse defaultEnvPath options fs' env'
                    = (Resolved {| apiKey := a |}, env')) ∧
  (truthy_value explicit = None →
   ∀ b, env !! ELEVENLABS_API_KEY = Some b → b ≠ "" →
        (loadConfig parse defaultEnvPath options fs env).1
        = Resolved {| apiKey := b |}) ∧
  (truthy_value explicit = None →
   env !! ELEVENLABS_API_KEY = None →
   ∀ src c, fs !! path = Some src →
            parse src !! ELEVENLABS_API_KEY = Some c → c ≠ "" →
            (loadConfig parse defaultEnvPath options fs env).1
            = Resolved {| apiKey := c |}) ∧
  (∀ k v, env !! k = Some v →
          (loadConfig parse defaultEnvPath options fs env).2 !! k = Some v).
Proof.
  intros explicit path. repeat split.
  - intros a Ha Hne fs' env'. rewrite loadConfig_unfold.
    fold explicit. by rewrite (proj2 (truthy_value_Some explicit a)).
  - intros He b Hb Hne. rewrite loadConfig_unfold.
    fold explicit path. rewrite He. cbv zeta.
    rewrite merged_key, Hb.
    by rewrite (proj2 (truthy_value_Some (Some b) b)).
  - intros He Henv src c Hsrc Hc Hne. rewrite loadConfig_unfold.
    fold explicit path. rewrite He. cbv zeta.
    rewrite merged_key, Henv, Hsrc. simpl. rewrite Hc.
    by rewrite (proj2 (truthy_value_Some (Some c) c)).
  - intros k v Hk. rewrite loadConfig_unfold.
    fold explicit path. destruct (truthy_value explicit); [done |].
    cbv zeta.
    assert (match fs !! path with
            | Some src => env ∪ parse src
            | None => env
            end !! k = Some v) as Hkept.
    { destruct (fs !! path); [by apply lookup_union_Some_l | done]. }
    by destruct (truthy_value _).
Qed.

(** C8, amended.  The resolver fails exactly when the explicit key is
    absent or empty and, after the merge, the variable is empty or
    missing: the process environment holds it as the empty string
    (whatever the env file defines), or does not hold it and the env file
    is absent, does not define it, or defines it empty.  The error then
    carries exactly the "not found" message. *)
Theorem loadConfig_fails_iff (options : option LoadConfigOptions)
    (fs env : gmap string string) :
  let explicit := options ≫= explicit_apiKey in
  let path := or_else (options ≫= envPath) defaultEnvPath in
  let supplied := fs !! path ≫= λ src, parse src !! ELEVENLABS_API_KEY in
  let outcome := (loadConfig parse defaultEnvPath options fs env).1 in
  ((∃ e, outcome = Rejected e) ↔
   (explicit = None ∨ explicit = Some "") ∧
   (env !! ELEVENLABS_API_KEY = Some "" ∨
    (env !! ELEVENLABS_API_KEY = None ∧
     (supplied = None ∨ supplied = Some "")))) ∧
  (∀ e, outcome = Rejected e →
        e = Error "ELEVENLABS_API_KEY not found. Set it via .env file, environment variable, or --api-key flag.").
Proof.
  intros explicit path supplied outcome. subst outcome.
  rewrite loadConfig_unfold. fold explicit path.
  destruct (truthy_value explicit) as [a|] eqn:He.
  { apply truthy_value_Some in He as [He Hne]. simpl.
    split; [| done]. split; [by intros [e ?] |].
    intros [[Hex | Hex] _]; congruence. }
  apply truthy_value_None in He. cbv zeta. rewrite merged_key.
  fold supplied.
  destruct (truthy_value _) as [k|] eqn:Hk; simpl.
  - apply truthy_value_Some in Hk as [Hk Hne].
    split; [| done]. split; [by intros [e ?] |].
    intros [_ [Henv | [Henv Hsup]]]; rewrite Henv in Hk; [congruence |].
    destruct Hsup as [Hsup | Hsup]; congruence.
  - apply truthy_value_None in Hk.
    split; [| by intros e [= <-]].
    split; [intros _ | by eauto].
    split; [exact He |].
    destruct (env !! ELEVENLABS_API_KEY) as [v|].
    + left. destruct Hk; congruence.
    + right. by split.
Qed.
End LoadConfigProperties.

Lemma loadConfig_priority_witness :
  (loadConfig key_value_lines ".env"
     (Some {| explicit_apiKey := Some "A"; envPath := None |})
     env_file_C process_env_B).1 = Resolved {| apiKey := "A" |} ∧
  (loadConfig key_value_lines ".env" None env_file_C process_env_B).1
  = Resolved {| apiKey := "B" |} ∧
  (loadConfig key_value_lines ".env" None env_file_C ∅).1
  = Resolved {| apiKey := "C" |}.
Proof.
  pose proof (loadConfig_priority key_value_lines ".env"
                (Some {| explicit_apiKey := Some "A"; envPath := None |})
                env_file_C process_env_B) as (HA & _).
  pose proof (loadConfig_priority key_value_lines ".env" None
                env_file_C process_env_B) as (_ & HB & _).
  pose proof (loadConfig_priority key_value_lines ".env" None
                env_file_C ∅) as (_ & _ & HC & _).
  split; [| split].
  - by rewrite (HA "A" eq_refl ltac:(done) env_file_C process_env_B).
  - apply HB; [reflexivity | reflexivity | done].
  - apply (HC eq_refl eq_refl "ELEVENLABS_API_KEY=C" "C");
      [reflexivity | by vm_compute | done].
Defined.

(** C2, as the claim states it, fails: with the variable set in the
    process environment (to the empty string) and an env file defining it
    as "C", the resolver returns neither the value of the process
    environment nor the value of the file. *)
Lemma loadConfig_empty_process_variable :
  let outcome :=
    (loadConfig key_value_lines ".env" None env_file_C process_env_blank).1 in
  process_env_blank !! ELEVENLABS_API_KEY = Some "" ∧
  (env_file_C !! ".env" ≫= λ src, key_value_lines src !! ELEVENLABS_API_KEY)
  = Some "C" ∧
  outcome ≠ Resolved {| apiKey := "" |} ∧
  outcome ≠ Resolved {| apiKey := "C" |}.
Proof. vm_compute. repeat split; discriminate. Qed.

Lemma loadConfig_fails_iff_witness :
  ∃ e, (loadConfig key_value_lines ".env" None ∅ ∅).1 = Rejected e.
Proof.
  apply (loadConfig_fails_iff key_value_lines ".env" None ∅ ∅).
  split; [by left |]. right. split; [reflexivity | by left].
Defined.

(** C8, as the claim states it, fails: the resolver fails although the
    env file supplies a value, when the process environment holds the
    variable as the empty string. *)
Lemma loadConfig_fails_though_file_supplies :
  let explicit : option string := None in
  let supplied :=
    env_file_C !! ".env" ≫= λ src, key_value_lines src !! ELEVENLABS_API_KEY in
  let outcome :=
    (loadConfig key_value_lines ".env" None env_file_C process_env_blank).1 in
  ¬ ((∃ e, outcome = Rejected e) ↔
     truthy_value explicit = None ∧
     truthy_value supplied = None ∧
     truthy_value (process_env_blank !! ELEVENLABS_API_KEY) = None).
Proof.
  intros explicit supplied outcome [Hfails _].
  assert (∃ e, outcome = Rejected e) as Hrejected by (eexists; by vm_compute).
  destruct (Hfails Hrejected) as (_ & Hsupplied & _).
  by vm_compute in Hsupplied.
Qed.

(** ** The report *)

Section ReportProperties.
Context {Json : Type}.
Variable JSON_stringify : Json → string.

#[local] Ltac appends :=
  intros prefix output x index; cbv beta delta [
    append_tool_call append_tool_result append_metrics_row] zeta;
  repeat case_match; rewrite ?append_assoc; reflexivity.

Lemma append_tool_call_appends : Appends (append_tool_call JSON_stringify).
Proof. appends. Qed.

Lemma append_tool_result_appends : Appends (@append_tool_result Json).
Proof. appends. Qed.

Lemma append_metrics_row_appends : Appends (@append_metrics_row Json).
Proof. appends. Qed.

Lemma tool_calls_step (turn : ConversationMessage Json) (text : string) :
  match tool_calls turn with
  | Some calls => forEach (append_tool_call JSON_stringify) calls text
  | None => text
  end = text +:+ tool_calls_block JSON_stringify turn.
Proof.
  unfold tool_calls_block.
  destruct (tool_calls turn) as [calls|]; [| by rewrite append_empty_r].
  rewrite <- (append_empty_r text) at 1.
  apply forEach_from_prefix, append_tool_call_appends.
Qed.

Lemma tool_results_step (turn : ConversationMessage Json) (text : string) :
  match tool_results turn with
  | Some results =>
    if bool_decide (0 < length results)%nat then
      forEach append_tool_result results
              (text +:+ LF +:+ "  **Results:**" +:+ LF)
    else text
  | None => text
  end = text +:+ tool_results_block turn.
Proof.
  unfold tool_results_block.
  destruct (tool_results turn) as [results|]; [| by rewrite append_empty_r].
  case_bool_decide; [| by rewrite append_empty_r].
  apply forEach_from_prefix, append_tool_result_appends.
Qed.

(** One turn of the tool-call section, as the text it appends. *)
Lemma append_tool_call_turn_text (output : string)
    (turn : ConversationMessage Json) (index : nat) :
  append_tool_call_turn JSON_stringify output turn index
  = output +:+ "### Turn " +:+ pretty (Z.of_nat index + 1) +:+ " (" +:+
    pretty (time_in_call_secs turn) +:+ "s into call)" +:+ LF +:+ LF +:+
    tool_calls_block JSON_stringify turn +:+ tool_results_block turn +:+ LF.
Proof.
  unfold append_tool_call_turn, ToString. cbv zeta.
  rewrite tool_calls_step, tool_results_step.
  rewrite !append_assoc. reflexivity.
Qed.
Lemma append_tool_call_turn_appends :
  Appends (append_tool_call_turn JSON_stringify).
Proof.
  intros prefix output turn index.
  rewrite !append_tool_call_turn_text. by rewrite append_assoc.
Qed.

Lemma filter_nil_iff {A : Type} (P : A → Prop) `{!∀ x, Decision (P x)}
    (l : list A) :
  filter P l = [] ↔ ∀ x, x ∈ l → ¬ P x.
Proof.
  split.
  - intros Hnil x Hx HP. by apply (filter_nil_not_elem_of P l x).
  - intros Hnone. destruct (filter P l) as [|y rest] eqn:Hf; [done |].
    assert (y ∈ filter P l) as Hy by (rewrite Hf; left).
    apply list_elem_of_filter in Hy as [HP Hy]. by destruct (Hnone y Hy).
Qed.

Lemma has_tool_calls_iff (turn : ConversationMessage Json) :
  has_tool_calls turn ↔ ∃ call calls, tool_calls turn = Some (call :: calls).
Proof.
  unfold has_tool_calls. destruct (tool_calls turn) as [[|call calls]|].
  - split; [| by intros (? & ? & ?)].
    intros Hpos. apply bool_decide_unpack in Hpos. simpl in Hpos. lia.
  - split; [by eauto |].
    intros _. apply bool_decide_pack. simpl. lia.
  - split; [done | by intros (? & ? & ?)].
Qed.

(** The tool-call section as a heading and one piece of text per
    tool-call-bearing turn. *)
Lemma analyzeToolCalls_text (conversation : Conversation Json) :
  let bearing :=
    filter (λ turn, has_tool_calls turn)
           (default [] (transcript conversation)) in
  analyzeToolCalls JSON_stringify conversation
  = LF +:+ "## Tool Calls Analysis" +:+ LF +:+ LF +:+
    match bearing with
    | [] => "_No tool calls detected_" +:+ LF
    | _ :: _ =>
      join (imap (λ i turn,
                    "### Turn " +:+ pretty (Z.of_nat i + 1) +:+ " (" +:+
                    pretty (time_in_call_secs turn) +:+ "s into call)" +:+
                    LF +:+ LF +:+ tool_calls_block JSON_stringify turn +:+
                    tool_results_block turn +:+ LF)
                 bearing)
    end.
Proof.
  intros bearing. unfold analyzeToolCalls. cbv zeta.
  assert (default [] (filter (λ turn, has_tool_calls turn)
                        <$> transcript conversation) = bearing) as ->.
  { subst bearing. by destruct (transcript conversation). }
  case_bool_decide as Hlen.
  - apply nil_length_inv in Hlen. rewrite Hlen.
    rewrite !append_assoc. reflexivity.
  - destruct bearing as [|turn rest] eqn:Hb; [done |].
    rewrite forEach_join by apply append_tool_call_turn_appends.
    rewrite (imap_ext _
               (λ i turn,
                  "### Turn " +:+ pretty (Z.of_nat i + 1) +:+ " (" +:+
                  pretty (time_in_call_secs turn) +:+ "s into call)" +:+
                  LF +:+ LF +:+ tool_calls_block JSON_stringify turn +:+
                  tool_results_block turn +:+ LF))
      by (intros i t _; by rewrite append_tool_call_turn_text).
    rewrite !append_assoc. reflexivity.
Qed.




(** ** Metrics *)

Lemma append_nonempty_r (a b : string) : b ≠ "" → a +:+ b ≠ "".
Proof.
  intros Hb Hab. apply (f_equal String.length) in Hab.
  rewrite length_append in Hab. destruct b; [done | simpl in Hab; lia].
Qed.

Lemma append_nonempty_l (a b : string) : a ≠ "" → a +:+ b ≠ "".
Proof. intros Ha. by destruct a. Qed.

Lemma pretty_N_go_length (x : N) (s : string) :
  (String.length s ≤ String.length (pretty_N_go x s))%nat.
Proof.
  revert s. induction (N.lt_wf_0 x) as [x _ IH]; intros s.
  assert (x = 0 ∨ 0 < x)%N as [-> | Hpos] by lia.
  - by rewrite pretty_N_go_0.
  - rewrite pretty_N_go_step by done.
    etrans; [| apply IH; by apply N.div_lt]. simpl. lia.
Qed.

Lemma pretty_Z_nonempty (z : Z) : pretty z ≠ "".
Proof.
  assert (∀ p : positive, pretty p ≠ "") as Hpos.
  { intros p. unfold pretty, pretty_positive, pretty, pretty_N.
    case_decide; [done |]. rewrite pretty_N_go_step by lia.
    intros Hempty.
    pose proof (pretty_N_go_length (N.pos p `div` 10)
                  (String (pretty_N_char (N.pos p `mod` 10)) "")) as Hlen.
    rewrite Hempty in Hlen. simpl in Hlen. lia. }
  destruct z as [|p|p]; unfold pretty, pretty_Z; [done | apply Hpos | done].
Qed.

Lemma Number_toString_nonempty (z : Z) : Number_toString z ≠ "".
Proof.
  unfold Number_toString. case_decide; [apply pretty_Z_nonempty |].
  cbv zeta. apply append_nonempty_r.
  destruct (shortest_decimal 17 (Z.abs z) _ 1) as [[s p]|];
    [| apply pretty_Z_nonempty].
  case_decide; [apply append_nonempty_l, pretty_Z_nonempty |].
  pose proof (pretty_Z_nonempty s) as Hs.
  destruct (pretty s) as [|c [|c' rest]]; [done | done | done].
Qed.

(** Below 10^21 the text of [toFixed(3)] is the sign, the whole part of
    [n / 1000], a point and three digits, [n] being the integer nearest
    to a thousand times the magnitude. *)
Lemma toFixed_below (x : Q) :
  (Qabs (binary64 x) < inject_Z (10 ^ 21))%Q →
  let n := Qfloor (Qabs (binary64 x) * 1000 + (1 # 2)) in
  toFixed x 3
  = (if Qlt_le_dec (binary64 x) 0 then "-" else "") +:+ pretty (n / 1000)
    +:+ "." +:+ pretty (n / 100 mod 10) +:+ pretty (n / 10 mod 10)
    +:+ pretty (n mod 10).
Proof.
  intros Hbelow n. unfold toFixed. cbv zeta.
  destruct (Qle_bool (inject_Z (10 ^ 21)) (Qabs (binary64 x))) eqn:Hle.
  { apply Qle_bool_iff in Hle. by apply Qle_not_lt in Hle. }
  change (inject_Z (10 ^ Z.of_nat 3)) with 1000%Q.
  change (10 ^ Z.of_nat 3) with 1000. fold n.
  unfold fraction_digits.
  replace (n mod 1000 / 10 / 10 mod 10) with (n / 100 mod 10)
    by (Z.div_mod_to_equations; lia).
  replace (n mod 1000 / 10 mod 10) with (n / 10 mod 10)
    by (Z.div_mod_to_equations; lia).
  replace (n mod 1000 mod 10) with (n mod 10)
    by (Z.div_mod_to_equations; lia).
  rewrite !append_assoc. reflexivity.
Qed.

Lemma toFixed_truthy (x : Q) : truthy (toFixed x 3) = true.
Proof.
  unfold truthy. apply bool_decide_eq_true_2.
  unfold toFixed. cbv zeta.
  destruct (Qle_bool _ _); apply append_nonempty_r.
  - destruct (is_infinite _); [done | apply Number_toString_nonempty].
  - apply append_nonempty_l, pretty_Z_nonempty.
Qed.

Lemma latency_cell_text (m : option LatencyMetric) :
  latency_cell m
  = match m with
    | Some l => toFixed (elapsed_time l) 3
    | None => "N/A"
    end.
Proof.
  unfold latency_cell, or_else, truthy_value.
  destruct m as [l|]; simpl; [| reflexivity].
  by rewrite toFixed_truthy.
Qed.

Lemma analyzeMetrics_text (conversation : Conversation Json) :
  let bearing :=
    filter (λ turn, is_Some (conversation_turn_metrics turn))
           (default [] (transcript conversation)) in
  analyzeMetrics conversation
  = LF +:+ "## Performance Metrics" +:+ LF +:+ LF +:+
    match bearing with
    | [] => "_No metrics available_" +:+ LF
    | _ :: _ =>
      "| Turn | TTFB (s) | TTF Sentence (s) |" +:+ LF +:+
      "|------|----------|------------------|" +:+ LF +:+
      join (imap (λ i turn, append_metrics_row "" turn i) bearing)
    end.
Proof.
  intros bearing. unfold analyzeMetrics. cbv zeta.
  assert (default [] (filter (λ turn, is_Some (conversation_turn_metrics turn))
                        <$> transcript conversation) = bearing) as ->.
  { subst bearing. by destruct (transcript conversation). }
  case_bool_decide as Hlen.
  - apply nil_length_inv in Hlen. rewrite Hlen.
    rewrite !append_assoc. reflexivity.
  - destruct bearing as [|turn rest] eqn:Hb; [done |].
    rewrite forEach_join by apply append_metrics_row_appends.
    rewrite !append_assoc. reflexivity.
Qed.

Lemma pretty_Z_length (z : Z) : (1 ≤ String.length (pretty z))%nat.
Proof.
  pose proof (pretty_Z_nonempty z). destruct (pretty z); [done | simpl; lia].
Qed.

(** C5, amended.  When no turn of the transcript has a metrics block, the
    section is its heading followed by the one line
    "_No metrics available_", and no table.  Otherwise it is the heading,
    the two table header lines and exactly one row per turn that has a
    metrics block, in order, numbered from 1 among those turns; in a row,
    a latency that is absent is written "N/A", and a latency that is
    present is written by [toFixed(3)]: for a latency below 10^21 that is
    the thousandth nearest to it, as its whole part, a point and three
    digits, which is never the placeholder. *)
Theorem analyzeMetrics_table (conversation : Conversation Json) :
  let turns := default [] (transcript conversation) in
  let bearing :=
    filter (λ turn, is_Some (conversation_turn_metrics turn)) turns in
  let heading := LF +:+ "## Performance Metrics" +:+ LF +:+ LF in
  let cell (m : option LatencyMetric) :=
    match m with
    | Some l => toFixed (elapsed_time l) 3
    | None => "N/A"
    end in
  let rows :=
    imap (λ i turn,
            "| " +:+ pretty (Z.of_nat i + 1) +:+ " | " +:+
            cell (conversation_turn_metrics turn ≫= convai_llm_service_ttfb)
            +:+ " | " +:+
            cell (conversation_turn_metrics turn
                    ≫= convai_llm_service_ttf_sentence)
            +:+ " |" +:+ LF)
         bearing in
  ((∀ turn, turn ∈ turns → conversation_turn_metrics turn = None) →
   analyzeMetrics conversation = heading +:+ "_No metrics available_" +:+ LF) ∧
  ((∃ turn, turn ∈ turns ∧ is_Some (conversation_turn_metrics turn)) →
   analyzeMetrics conversation
   = heading +:+ "| Turn | TTFB (s) | TTF Sentence (s) |" +:+ LF +:+
     "|------|----------|------------------|" +:+ LF +:+ join rows) ∧
  length rows = length bearing ∧
  (∀ x : Q,
      (Qabs (binary64 x) < inject_Z (10 ^ 21))%Q →
      ∃ n : Z,
        (inject_Z n - Qabs (binary64 x) * 1000 <= 1 # 2)%Q ∧
        (Qabs (binary64 x) * 1000 - inject_Z n < 1 # 2)%Q ∧
        toFixed x 3
        = (if Qlt_le_dec (binary64 x) 0 then "-" else "") +:+
          pretty (n / 1000) +:+ "." +:+ pretty (n / 100 mod 10) +:+
          pretty (n / 10 mod 10) +:+ pretty (n mod 10) ∧
        toFixed x 3 ≠ "N/A").
Proof.
  intros turns bearing heading cell rows.
  pose proof (analyzeMetrics_text conversation) as Htext.
  cbv zeta in Htext. fold turns bearing in Htext.
  split; [| split; [| split]].
  - intros Hnone.
    assert (bearing = []) as Hnil.
    { apply filter_nil_iff. intros turn Hin [m Hm].
      rewrite (Hnone turn Hin) in Hm. discriminate. }
    rewrite Hnil in Htext. rewrite Htext. subst heading.
    rewrite !append_assoc. reflexivity.
  - intros (turn & Hin & Hm).
    assert (turn ∈ bearing) as Hb by by apply list_elem_of_filter.
    subst rows.
    destruct bearing as [|first rest] eqn:Hbearing;
      [by apply elem_of_nil in Hb |].
    rewrite Htext. subst heading.
    rewrite (imap_ext (λ i turn, append_metrics_row "" turn i)
               (λ i turn,
                  "| " +:+ pretty (Z.of_nat i + 1) +:+ " | " +:+
                  cell (conversation_turn_metrics turn
                          ≫= convai_llm_service_ttfb)
                  +:+ " | " +:+
                  cell (conversation_turn_metrics turn
                          ≫= convai_llm_service_ttf_sentence)
                  +:+ " |" +:+ LF)).
    + rewrite !append_assoc. reflexivity.
    + intros i t _. unfold append_metrics_row. cbv zeta.
      by rewrite !latency_cell_text.
  - subst rows. apply length_imap.
  - intros x Hbelow.
    pose proof (toFixed_below x Hbelow) as Htextx. cbv zeta in Htextx.
    pose proof (Qfloor_le (Qabs (binary64 x) * 1000 + (1 # 2))) as Hle.
    pose proof (Qlt_floor (Qabs (binary64 x) * 1000 + (1 # 2))) as Hlt.
    rewrite inject_Z_plus in Hlt. change (inject_Z 1) with 1%Q in Hlt.
    set (n := Qfloor (Qabs (binary64 x) * 1000 + (1 # 2))) in *.
    exists n.
    split; [lra |]. split; [lra |]. split; [exact Htextx |].
    rewrite Htextx. intros Hna. apply (f_equal String.length) in Hna.
    rewrite !length_append in Hna.
    change (String.length ".") with 1%nat in Hna.
    change (String.length "N/A") with 3%nat in Hna.
    pose proof (pretty_Z_length (n / 1000)).
    pose proof (pretty_Z_length (n mod 10)).
    pose proof (pretty_Z_length (n / 10 mod 10)).
    lia.
Qed.
(** ** The whole report *)



End ReportProperties.

(** ** Examples *)

Example toFixed_examples :
  toFixed (1 # 2) 3 = "0.500" ∧
  toFixed (1234567 # 1000000) 3 = "1.235" ∧
  toFixed 0 3 = "0.000" ∧
  toFixed (123 # 1) 3 = "123.000" ∧
  toFixed (- (1 # 10000)) 3 = "-0.000".
Proof. by vm_compute. Qed.

Example key_value_lines_example :
  key_value_lines ("A=1" +:+ LF +:+ "ELEVENLABS_API_KEY=sk_test" +:+ LF)
  !! ELEVENLABS_API_KEY = Some "sk_test".
Proof. by vm_compute. Qed.


Lemma analyzeMetrics_table_witness :
  analyzeMetrics (conversation_of [turn_plain; turn_lookup])
  = join [LF; "## Performance Metrics"; LF; LF;
          "| Turn | TTFB (s) | TTF Sentence (s) |"; LF;
          "|------|----------|------------------|"; LF;
          "| 1 | 0.500 | N/A |"; LF] ∧
  toFixed (1 # 2) 3 = "0.500".
Proof.
  destruct (analyzeMetrics_table (conversation_of [turn_plain; turn_lookup]))
    as (_ & Hsome & _ & Hfixed).
  split.
  - rewrite Hsome; [by vm_compute |].
    exists turn_lookup. split; [right; left | by eexists].
  - destruct (Hfixed (1 # 2)%Q) as (n & Hlo & Hhi & Htext & _);
      [by vm_compute |].
    assert (Qabs (binary64 (1 # 2)) == 1 # 2)%Q as Hhalf by by vm_compute.
    rewrite Hhalf in Hlo, Hhi.
    assert (n = 500) as ->.
    { revert Hlo Hhi. unfold Qle, Qlt, Qminus, Qplus, Qmult, Qopp, inject_Z.
      simpl. lia. }
    rewrite Htext. by vm_compute.
Defined.

Lemma avoids_not_cut (c : ascii) (whole frac : string) :
  ¬ avoids c (whole +:+ String c frac).
Proof.
  induction whole as [|ch whole IH]; rewrite ?append_cons; simpl.
  - by intros [Hne _].
  - by intros [_ Hrest].
Qed.

(** C5, as the claim states it, fails: a latency of 10^21 seconds is
    written "1e+21", with no decimal place at all. *)
Lemma analyzeMetrics_huge_latency :
  analyzeMetrics (conversation_of [turn_slow])
  = join [LF; "## Performance Metrics"; LF; LF;
          "| Turn | TTFB (s) | TTF Sentence (s) |"; LF;
          "|------|----------|------------------|"; LF;
          "| 1 | 1e+21 | N/A |"; LF] ∧
  ¬ ∃ whole frac, toFixed (inject_Z (10 ^ 21)) 3 = whole +:+ "." +:+ frac.
Proof.
  split; [by vm_compute |].
  intros (whole & frac & Htext).
  assert (toFixed (inject_Z (10 ^ 21)) 3 = "1e+21") as Hvalue by by vm_compute.
  assert (avoids "." (toFixed (inject_Z (10 ^ 21)) 3)) as Havoids
    by (rewrite Hvalue; simpl; repeat split; discriminate).
  rewrite Htext in Havoids. by apply avoids_not_cut in Havoids.
Qed.




(** * Further properties of the code *)

(** ** The client, beyond failures *)

(** X1.  When the transport resolves the request of an operation with
    some data, the operation resolves with that data, unchanged: the GET
    of "/v1/convai/conversations/<id>" without configuration for
    [getConversation], the GET of "/v1/convai/conversations" with its
    [page_size] for [listConversations], the GET of
    "/v1/convai/conversations/<id>/audio" with response type
    "arraybuffer" for [getAudio].  How an operation settles depends on
    the transport through the answers to the requests recorded as sent,
    and through nothing else. *)
Theorem client_success_passthrough {D : Type} (client : AxiosInstance D) :
  (∀ conversationId data,
      client {| url := "/v1/convai/conversations/" +:+ conversationId;
                config := None |} = Resolved data →
      settled (getConversation client conversationId) = Resolved data) ∧
  (∀ options data,
      client {| url := "/v1/convai/conversations";
                config :=
                  Some {| params := [("page_size", options ≫= limit)];
                          responseType := None |} |} = Resolved data →
      settled (listConversations client options) = Resolved data) ∧
  (∀ conversationId data,
      client {| url := "/v1/convai/conversations/" +:+ conversationId
                       +:+ "/audio";
                config := Some {| params := [];
                                  responseType := Some "arraybuffer" |} |}
      = Resolved data →
      settled (getAudio client conversationId) = Resolved data) ∧
  (∀ (op : Operation) (client' : AxiosInstance D),
      (∀ request,
          request ∈ sent (perform client op) →
          client' request = client request) →
      sent (perform client' op) = sent (perform client op) ∧
      settled (perform client' op) = settled (perform client op)).
Proof.
  split; [| split; [| split]].
  - intros conversationId data Hdata. simpl. by rewrite Hdata.
  - intros options data Hdata. simpl. by rewrite Hdata.
  - intros conversationId data Hdata. simpl. by rewrite Hdata.
  - intros op client' Hsame. split; [by destruct op |].
    destruct op; simpl in *;
      by rewrite Hsame by apply list_elem_of_singleton, eq_refl.
Qed.

Lemma client_success_passthrough_witness :
  settled (getAudio audio_server "conv_1") = Resolved three_bytes ∧
  settled (perform (λ request,
                      if decide (url request = "/v1/convai/conversations")
                      then paging_server request
                      else Rejected unreachable)
             (ListConversations (Some {| limit := Some 1; offset := None |})))
  = Resolved {| conversations := [item "5"] |}.
Proof.
  split.
  - apply (client_success_passthrough audio_server). by vm_compute.
  - pose proof (client_success_passthrough paging_server)
      as (_ & Hlist & _ & Honly).
    destruct (Honly (ListConversations
                       (Some {| limit := Some 1; offset := None |}))
                (λ request,
                   if decide (url request = "/v1/convai/conversations")
                   then paging_server request
                   else Rejected unreachable)) as [_ ->].
    + intros request Hin. apply list_elem_of_singleton in Hin. by subst.
    + by apply Hlist.
Defined.

(** ** The configuration resolver, beyond priority *)

Section LoadConfigFurther.
Variable parse : string → gmap string string.
Variable defaultEnvPath : string.

(** X2.  A key that [loadConfig] returns is never the empty string, and it
    is the explicit key, or the value of the process environment variable,
    or, the process environment not holding the variable, the value that
    the env file defines. *)
Theorem loadConfig_resolved_key (options : option LoadConfigOptions)
    (fs env : gmap string string) (config : Config)
    (Hresolved :
       (loadConfig parse defaultEnvPath options fs env).1 = Resolved config) :
  let explicit := options ≫= explicit_apiKey in
  let path := or_else (options ≫= envPath) defaultEnvPath in
  let supplied := fs !! path ≫= λ src, parse src !! ELEVENLABS_API_KEY in
  apiKey config ≠ "" ∧
  (explicit = Some (apiKey config) ∨
   env !! ELEVENLABS_API_KEY = Some (apiKey config) ∨
   (env !! ELEVENLABS_API_KEY = None ∧ supplied = Some (apiKey config))).
Proof.
  intros explicit path supplied.
  rewrite loadConfig_unfold in Hresolved. fold explicit path in Hresolved.
  destruct (truthy_value explicit) as [a|] eqn:He.
  { apply truthy_value_Some in He as [He Hne].
    simpl in Hresolved. injection Hresolved as <-. simpl. by auto. }
  cbv zeta in Hresolved. rewrite merged_key in Hresolved.
  fold supplied in Hresolved.
  destruct (truthy_value
              match env !! ELEVENLABS_API_KEY with
              | Some v => Some v
              | None => supplied
              end) as [k|] eqn:Hk;
    simpl in Hresolved; [| discriminate Hresolved].
  injection Hresolved as <-. simpl.
  apply truthy_value_Some in Hk as [Hk Hne]. split; [done |].
  destruct (env !! ELEVENLABS_API_KEY) as [v|]; [by auto |].
  right; right. by split.
Qed.

(** X3.  [loadConfig] is idempotent on the process environment: called
    again with the same options and files on the environment that the
    first call left, it has the same outcome and leaves that environment
    as it is. *)
Theorem loadConfig_idempotent (options : option LoadConfigOptions)
    (fs env : gmap string string) :
  let first := loadConfig parse defaultEnvPath options fs env in
  loadConfig parse defaultEnvPath options fs first.2 = first.
Proof.
  cbv zeta. rewrite !loadConfig_unfold.
  destruct (truthy_value (options ≫= explicit_apiKey)) as [a|]; [done |].
  cbv zeta.
  destruct (fs !! or_else (options ≫= envPath) defaultEnvPath) as [src|].
  - assert (∀ r : Promise Config Thrown,
              (r, env ∪ parse src).2 ∪ parse src = env ∪ parse src) as Hagain.
    { intros r. simpl.
      by rewrite <- (assoc_L (∪)), (idemp_L (∪) (parse src)). }
    destruct (truthy_value ((env ∪ parse src) !! ELEVENLABS_API_KEY)) eqn:Hk;
      rewrite Hagain, Hk; reflexivity.
  - destruct (truthy_value (env !! ELEVENLABS_API_KEY)) eqn:Hk;
      simpl; rewrite Hk; reflexivity.
Qed.

(** X4.  What [loadConfig] does to the process environment: nothing when
    a non-empty explicit key is given or the env file does not exist;
    otherwise every variable that the file defines and the process
    environment does not hold is added with the file's value, also when
    the call then throws, and no variable that the process environment
    holds is changed. *)
Theorem loadConfig_environment_after (options : option LoadConfigOptions)
    (fs env : gmap string string) :
  let explicit := options ≫= explicit_apiKey in
  let path := or_else (options ≫= envPath) defaultEnvPath in
  let after := (loadConfig parse defaultEnvPath options fs env).2 in
  (is_Some (truthy_value explicit) ∨ fs !! path = None → after = env) ∧
  (truthy_value explicit = None →
   ∀ src, fs !! path = Some src →
          ∀ k, after !! k
               = match env !! k with
                 | Some v => Some v
                 | None => parse src !! k
                 end).
Proof.
  intros explicit path after. subst after.
  rewrite loadConfig_unfold. fold explicit path. split.
  - intros [[a Ha] | Hfile].
    + by rewrite Ha.
    + destruct (truthy_value explicit); [done |].
      cbv zeta. rewrite Hfile.
      by destruct (truthy_value (env !! ELEVENLABS_API_KEY)).
  - intros He src Hsrc k. rewrite He. cbv zeta. rewrite Hsrc.
    destruct (truthy_value ((env ∪ parse src) !! ELEVENLABS_API_KEY));
      simpl; apply merged_lookup.
Qed.
End LoadConfigFurther.

Lemma loadConfig_resolved_key_witness :
  "C" ≠ "" ∧
  ((None : option string) = Some "C" ∨
   (∅ : gmap string string) !! ELEVENLABS_API_KEY = Some "C" ∨
   ((∅ : gmap string string) !! ELEVENLABS_API_KEY = None ∧
    (env_file_C !! ".env" ≫= λ src, key_value_lines src !! ELEVENLABS_API_KEY)
    = Some "C")).
Proof.
  apply (loadConfig_resolved_key key_value_lines ".env" None env_file_C ∅
           {| apiKey := "C" |}).
  by vm_compute.
Defined.

Lemma loadConfig_environment_after_witness :
  (loadConfig key_value_lines ".env" None env_file_C process_env_blank).2
  !! ELEVENLABS_API_KEY = Some "" ∧
  (loadConfig key_value_lines ".env" None env_file_C ∅).2
  !! ELEVENLABS_API_KEY = Some "C".
Proof.
  split.
  - rewrite (proj2 (loadConfig_environment_after key_value_lines ".env" None
                      env_file_C process_env_blank)
               eq_refl "ELEVENLABS_API_KEY=C" eq_refl ELEVENLABS_API_KEY).
    reflexivity.
  - rewrite (proj2 (loadConfig_environment_after key_value_lines ".env" None
                      env_file_C ∅)
               eq_refl "ELEVENLABS_API_KEY=C" eq_refl ELEVENLABS_API_KEY).
    by vm_compute.
Defined.

(** ** The list command, beyond the page *)

Lemma concat_imap_length {A B : Type} (g : nat → A → list B) (n : nat)
    (Hg : ∀ i x, length (g i x) = n) (l : list A) :
  length (concat (imap g l)) = (n * length l)%nat.
Proof.
  revert g Hg. induction l as [|x l IH]; intros g Hg; simpl; [lia |].
  rewrite length_app, Hg, IH by (intros; apply Hg). lia.
Qed.

(** X5.  When the list request is rejected, the list command prints
    nothing on the standard output, prints the one line
    "✗ Error listing conversations: <message>" on the standard error and
    exits with status 1; the message is "API Error: <status> <statusText>"
    when the error carries a response and the error's own message
    otherwise. *)
Theorem listCommand_failure
    (axios_create : AxiosConfig → AxiosInstance ConversationListResponse)
    (options : ListCommandOptions) (e : TransportError)
    (Hrejected :
       ∀ request,
         ElevenLabsClient axios_create (list_apiKey options) request
         = Rejected e) :
  listCommand axios_create options
  = {| stdout := [];
       stderr :=
         ["✗ Error listing conversations: " +:+
          match response e with
          | Some r =>
            "API Error: " +:+ pretty (http_status r) +:+ " " +:+ statusText r
          | None => err_message e
          end];
       exit_status := Some 1 |}.
Proof.
  unfold listCommand, listConversations. cbv zeta. simpl.
  rewrite Hrejected. by destruct (response e).
Qed.

Lemma listCommand_failure_witness :
  listCommand (λ _ _, Rejected not_found)
    {| recent := Some 5; list_apiKey := "key" |}
  = {| stdout := [];
       stderr := ["✗ Error listing conversations: API Error: 404 Not Found"];
       exit_status := Some 1 |}.
Proof.
  apply (listCommand_failure (λ _ _, Rejected not_found)
           {| recent := Some 5; list_apiKey := "key" |} not_found).
  reflexivity.
Defined.

(** X6.  A missing [recent] and a [recent] of 0 both behave as a [recent]
    of 10, whatever the server does. *)
Theorem listCommand_default_limit
    (axios_create : AxiosConfig → AxiosInstance ConversationListResponse)
    (key : string) :
  listCommand axios_create {| recent := None; list_apiKey := key |}
  = listCommand axios_create {| recent := Some 10; list_apiKey := key |} ∧
  listCommand axios_create {| recent := Some 0; list_apiKey := key |}
  = listCommand axios_create {| recent := Some 10; list_apiKey := key |}.
Proof. split; reflexivity. Qed.

(** X7.  When the list request resolves, the list command prints nothing
    on the standard error, does not exit, and prints one heading line
    followed by four lines per item of the response: only the heading for
    an empty response. *)
Theorem listCommand_success_shape
    (axios_create : AxiosConfig → AxiosInstance ConversationListResponse)
    (options : ListCommandOptions) (page : ConversationListResponse)
    (Hresolved :
       ∀ request,
         ElevenLabsClient axios_create (list_apiKey options) request
         = Resolved page) :
  let out := listCommand axios_create options in
  stderr out = [] ∧ exit_status out = None ∧
  length (stdout out) = (1 + 4 * length (conversations page))%nat ∧
  (conversations page = [] →
   stdout out = [LF +:+ "📋 Recent Conversations (showing 0):" +:+ LF]).
Proof.
  cbv zeta. unfold listCommand, listConversations. cbv zeta. simpl.
  rewrite Hresolved. simpl. split; [done |]. split; [done |]. split.
  - unfold forEach.
    rewrite (forEach_from_concat _
               (λ conv index,
                  [ToString (Z.of_nat index + 1) +:+ ". " +:+
                     item_conversation_id conv;
                   "   Agent: " +:+ item_agent_id conv;
                   "   Created: " +:+ created_at conv;
                   ""])) by done.
    rewrite length_app, (concat_imap_length _ 4) by done. simpl. lia.
  - intros ->. reflexivity.
Qed.

Lemma listCommand_success_shape_witness :
  length (stdout (listCommand (λ _, whole_list_server)
                    {| recent := None; list_apiKey := "key" |}))
  = 21%nat.
Proof.
  pose proof (listCommand_success_shape (λ _, whole_list_server)
                {| recent := None; list_apiKey := "key" |}
                {| conversations := five_items |}
                (λ _, eq_refl)) as (_ & _ & Hlen & _).
  exact Hlen.
Defined.

(** ** The analyze command, beyond the empty transcript *)

Section AnalyzeFurther.
Context {Json : Type}.
Variable JSON_stringify : Json → string.




(** X9.  A transcript that is missing is reported as an empty one. *)
Theorem analyzeMarkdown_missing_transcript (conversationId : string)
    (conversation : Conversation Json) :
  analyzeMarkdown JSON_stringify conversationId
    (with_transcript conversation None)
  = analyzeMarkdown JSON_stringify conversationId
      (with_transcript conversation (Some [])).
Proof.
  unfold analyzeMarkdown. simpl.
  destruct (metadata conversation) as [md|]; [| done].
  rewrite !analyzeToolCalls_text, !analyzeMetrics_text. reflexivity.
Qed.

(** X10.  The tool-call section ignores every turn without tool calls,
    its tool results included: removing such a turn from the transcript
    changes neither the subsections nor their numbers. *)
Theorem analyzeToolCalls_skips_turns_without_calls
    (conversation : Conversation Json)
    (before after : list (ConversationMessage Json))
    (turn : ConversationMessage Json)
    (Hnone : tool_calls turn = None ∨ tool_calls turn = Some []) :
  analyzeToolCalls JSON_stringify
    (with_transcript conversation (Some (before ++ turn :: after)))
  = analyzeToolCalls JSON_stringify
      (with_transcript conversation (Some (before ++ after))).
Proof.
  rewrite !analyzeToolCalls_text. cbv zeta. simpl.
  rewrite !filter_app, filter_cons_False; [done |].
  intros Hcalls. apply has_tool_calls_iff in Hcalls as (c & cs & Hc).
  destruct Hnone; congruence.
Qed.

(** X11.  The metrics table ignores every turn without a metrics block:
    removing such a turn changes neither the rows nor their numbers. *)
Theorem analyzeMetrics_skips_turns_without_metrics
    (conversation : Conversation Json)
    (before after : list (ConversationMessage Json))
    (turn : ConversationMessage Json)
    (Hnone : conversation_turn_metrics turn = None) :
  analyzeMetrics
    (with_transcript conversation (Some (before ++ turn :: after)))
  = analyzeMetrics (with_transcript conversation (Some (before ++ after))).
Proof.
  rewrite !analyzeMetrics_text. cbv zeta. simpl.
  rewrite !filter_app, filter_cons_False; [done |].
  rewrite Hnone. by intros [? ?].
Qed.

(** X12.  [analyzeCommand] ends in one of two ways: one text on the
    standard output, nothing on the standard error and no exit; or nothing
    on the standard output, one line on the standard error that starts
    with the failure prefix, and exit status 1.  It fails exactly when the
    fetch is rejected or the fetched conversation has no metadata; a
    rejection that carries a response is reported as
    "API Error: <status> <statusText>". *)
Theorem analyzeCommand_outcome
    (axios_create : AxiosConfig → AxiosInstance (Conversation Json))
    (conversationId apiKey : string) :
  let fetched :=
    ElevenLabsClient axios_create apiKey
      {| url := "/v1/convai/conversations/" +:+ conversationId;
         config := None |} in
  let out := analyzeCommand JSON_stringify axios_create conversationId apiKey in
  ((∃ report,
       out = {| stdout := [report]; stderr := []; exit_status := None |}) ∨
   (∃ reason,
       out = {| stdout := []; stderr := [ANALYZE_FAILURE +:+ reason];
                exit_status := Some 1 |})) ∧
  (exit_status out = Some 1 ↔
   (∃ e, fetched = Rejected e) ∨
   (∃ c, fetched = Resolved c ∧ metadata c = None)) ∧
  (∀ e r, fetched = Rejected e → response e = Some r →
          stderr out
          = [ANALYZE_FAILURE +:+ "API Error: " +:+ pretty (http_status r)
             +:+ " " +:+ statusText r]).
Proof.
  intros fetched out. subst out.
  unfold analyzeCommand, getConversation. cbv zeta. simpl. fold fetched.
  destruct fetched as [c | e] eqn:Hfetched.
  - unfold analyzeMarkdown.
    destruct (metadata c) as [md|] eqn:Hmd; simpl.
    + split; [left; by eexists |]. split; [| by intros e r [=]].
      split; [done |]. intros [[e [=]] | (c' & [= <-] & Hnone)]. congruence.
    + split; [right; by eexists |]. split; [| by intros e r [=]].
      split; [| done]. intros _. right. by exists c.
  - destruct (response e) as [r|] eqn:Hr; simpl.
    + split; [right; by eexists |]. split.
      * split; [| done]. intros _. left. by exists e.
      * intros e' r' [= <-] Hr'. rewrite Hr in Hr'. by injection Hr' as <-.
    + split; [right; by eexists |]. split.
      * split; [| done]. intros _. left. by exists e.
      * intros e' r' [= <-] Hr'. congruence.
Qed.
End AnalyzeFurther.


Lemma analyzeToolCalls_skips_turns_without_calls_witness :
  analyzeToolCalls stringify_empty_object
    (with_transcript (conversation_of [])
       (Some ([turn_plain] ++ turn_results_only :: [turn_lookup])))
  = analyzeToolCalls stringify_empty_object
      (with_transcript (conversation_of [])
         (Some ([turn_plain] ++ [turn_lookup]))).
Proof.
  apply (analyzeToolCalls_skips_turns_without_calls stringify_empty_object
           (conversation_of []) [turn_plain] [turn_lookup] turn_results_only).
  left. reflexivity.
Defined.

Lemma analyzeMetrics_skips_turns_without_metrics_witness :
  analyzeMetrics
    (with_transcript (conversation_of [])
       (Some ([] ++ turn_plain :: [turn_lookup])))
  = analyzeMetrics
      (with_transcript (conversation_of []) (Some ([] ++ [turn_lookup]))).
Proof.
  apply (analyzeMetrics_skips_turns_without_metrics (conversation_of [])
           [] [turn_lookup] turn_plain).
  reflexivity.
Defined.

(** ** formatDuration, beyond non-negative durations *)

(** X13.  For a negative whole number of seconds above -2^53 (a safe
    integer) the two fields are computed by different roundings: the
    minutes are rounded down, the seconds keep the sign of the input.
    The text is then "<m>m <r>s" with [-60 < r <= 0], and unless the
    input is a multiple of 60 the two fields add up to one minute less
    than the input ([60 m + r = s - 60]): -61 gives "-2m -1s". *)
Theorem formatDuration_negative (s : Z) (Hs : s < 0) (Hsafe : - 2 ^ 53 < s) :
  ∃ m r : Z,
    formatDuration s = pretty m +:+ "m " +:+ pretty r +:+ "s" ∧
    -60 < r ≤ 0 ∧
    (r = 0 → 60 * m = s) ∧
    (r ≠ 0 → 60 * m + r = s - 60).
Proof.
  exists (s `div` 60), (Z.rem s 60).
  split; [apply formatDuration_safe; lia |].
  Z.div_mod_to_equations. Z.quot_rem_to_equations. lia.
Qed.

Lemma formatDuration_negative_witness : formatDuration (-61) = "-2m -1s".
Proof.
  destruct (formatDuration_negative (-61) ltac:(lia) ltac:(lia))
    as (m & r & Htext & Hr & Hzero & Hnonzero).
  assert (r ≠ 0) as Hne by (intros ->; specialize (Hzero eq_refl); lia).
  specialize (Hnonzero Hne).
  assert (m = -2) as -> by lia. assert (r = -1) as -> by lia.
  exact Htext.
Defined.

Lemma pretty_N_char_avoids (c : ascii) (d : N) :
  avoids c "0123456789" → pretty_N_char d ≠ c.
Proof.
  simpl. intros (? & ? & ? & ? & ? & ? & ? & ? & ? & ? & _).
  unfold pretty_N_char. by repeat case_match.
Qed.

Lemma pretty_N_go_avoids (c : ascii) (x : N) (s : string) :
  avoids c "0123456789" → avoids c s → avoids c (pretty_N_go x s).
Proof.
  intros Hc. revert s.
  induction (N.lt_wf_0 x) as [x _ IH]; intros s Hs.
  assert (x = 0 ∨ 0 < x)%N as [-> | Hpos] by lia.
  - by rewrite pretty_N_go_0.
  - rewrite pretty_N_go_step by done. apply IH.
    + by apply N.div_lt.
    + split; [by apply pretty_N_char_avoids | done].
Qed.

Lemma pretty_Z_avoids (c : ascii) (z : Z) :
  avoids c "-0123456789" → avoids c (pretty z).
Proof.
  intros [Hdash Hdigits].
  assert (∀ p : positive, avoids c (pretty p)) as Hpos.
  { intros p. unfold pretty, pretty_positive, pretty, pretty_N.
    case_decide; [done |]. by apply pretty_N_go_avoids. }
  destruct z as [|p|p]; unfold pretty, pretty_Z.
  - simpl in Hdigits. simpl. by destruct Hdigits.
  - apply Hpos.
  - split; [done | apply Hpos].
Qed.

(** A text is cut in one way only at the first occurrence of a character. *)
Lemma cut_unique (c : ascii) (a a' x x' : string) :
  avoids c a → avoids c a' →
  a +:+ String c x = a' +:+ String c x' → a = a' ∧ x = x'.
Proof.
  revert a'. induction a as [|ch a IH]; intros [|ch' a'] Ha Ha' Heq;
    rewrite ?append_cons in Heq; simpl in *.
  - by injection Heq.
  - injection Heq as Hc _. destruct Ha' as [Hne _]. by destruct Hne.
  - injection Heq as Hc _. destruct Ha as [Hne _]. by destruct Hne.
  - injection Heq as -> Heq.
    destruct (IH a' (proj2 Ha) (proj2 Ha') Heq) as [-> ->]. done.
Qed.

(** X14.  Distinct whole numbers of seconds between -2^53 and 2^53 (safe
    integers), of either sign, have distinct texts: within that range the
    duration can be read back from its text. *)
Theorem formatDuration_distinct (s s' : Z)
    (Hsafe : Z.abs s < 2 ^ 53) (Hsafe' : Z.abs s' < 2 ^ 53) (Hne : s ≠ s') :
  formatDuration s ≠ formatDuration s'.
Proof.
  intros Heq. apply Hne.
  rewrite !formatDuration_safe in Heq by done.
  apply (cut_unique "m") in Heq as [Hm Heq];
    [| by apply pretty_Z_avoids; vm_compute; repeat split..].
  apply (inj pretty) in Hm.
  change (" " +:+ ?x) with (String " " x) in Heq.
  injection Heq as Heq.
  apply (cut_unique "s") in Heq as [Hr _];
    [| by apply pretty_Z_avoids; vm_compute; repeat split..].
  apply (inj pretty) in Hr.
  revert Hm Hr. clear Hsafe Hsafe'.
  Z.div_mod_to_equations. Z.quot_rem_to_equations. lia.
Qed.

Lemma formatDuration_distinct_witness :
  formatDuration 59 ≠ formatDuration 60 ∧
  formatDuration (-1) ≠ formatDuration 1.
Proof.
  split.
  - apply (formatDuration_distinct 59 60); lia.
  - apply (formatDuration_distinct (-1) 1); lia.
Defined.

(** ** The get and audio commands *)

Section FileCommandsProperties.
Context {FS : Type}.
Variable dirname : string → string.
Variable fs_existsSync : FS → string → bool.
Variable fs_mkdirSync : string → FS → FS * option Thrown.
Variable fs_writeFileSync : string → FileContent → FS → FS * option Thrown.
(** Reading a file back, and the one law of the file system that the
    round trips below rest on: a write that does not throw is read back. *)
Variable fs_readFile : FS → string → option FileContent.
Hypothesis write_then_read :
  ∀ path content fs fs',
    fs_writeFileSync path content fs = (fs', None) →
    fs_readFile fs' path = Some content.

Lemma ensure_dir_and_write_read (path : string) (content : FileContent)
    (fs fs' : FS) :
  ensure_dir_and_write dirname fs_existsSync fs_mkdirSync fs_writeFileSync
    path content fs = (fs', None) →
  fs_readFile fs' path = Some content.
Proof.
  unfold ensure_dir_and_write. cbv zeta.
  destruct (fs_existsSync fs (dirname path)).
  - apply write_then_read.
  - destruct (fs_mkdirSync (dirname path) fs) as [fs1 [error|]];
      [by intros [=] | apply write_then_read].
Qed.

Section GetCommandProperties.
Context {Json : Type}.
Variable JSON_stringify_indented : Conversation Json → string.
Variable axios_create : AxiosConfig → AxiosInstance (Conversation Json).

Abbreviation run_get :=
  (getCommand dirname fs_existsSync fs_mkdirSync fs_writeFileSync
     JSON_stringify_indented axios_create).

(** X15.  Without [save] and without a non-empty [output], a fetched
    conversation is printed as its indented JSON and nothing is written:
    the file system is left as it was. *)
Theorem getCommand_prints_only (conversationId : string)
    (options : GetCommandOptions) (fs : FS) (c : Conversation Json)
    (Hfetched :
       ElevenLabsClient axios_create (get_apiKey options)
         {| url := "/v1/convai/conversations/" +:+ conversationId;
            config := None |} = Resolved c)
    (Hsave : save options = None ∨ save options = Some false)
    (Houtput : get_output options = None ∨ get_output options = Some "") :
  run_get conversationId options fs
  = ({| stdout := [JSON_stringify_indented c]; stderr := [];
        exit_status := None |}, fs).
Proof.
  unfold getCommand, getConversation. cbv zeta. simpl. rewrite Hfetched.
  destruct Hsave as [-> | ->], Houtput as [-> | ->]; reflexivity.
Qed.

(** X16.  When the fetch is rejected, whatever the options, nothing is
    written (the file system is left as it was), nothing is printed on the
    standard output, one line "✗ Error fetching conversation: <message>"
    is printed on the standard error and the exit status is 1. *)
Theorem getCommand_fetch_failure (conversationId : string)
    (options : GetCommandOptions) (fs : FS) (e : TransportError)
    (Hrejected :
       ElevenLabsClient axios_create (get_apiKey options)
         {| url := "/v1/convai/conversations/" +:+ conversationId;
            config := None |} = Rejected e) :
  run_get conversationId options fs
  = ({| stdout := [];
        stderr :=
          ["✗ Error fetching conversation: " +:+
           match response e with
           | Some r =>
             "API Error: " +:+ pretty (http_status r) +:+ " " +:+
             statusText r
           | None => err_message e
           end];
        exit_status := Some 1 |}, fs).
Proof.
  unfold getCommand, getConversation. cbv zeta. simpl. rewrite Hrejected.
  by destruct (response e).
Qed.

(** X17.  When saving is asked for ([save], or a non-empty [output]) and
    the command does not fail, the file at [output], or at
    "./conversations/<id>.json" when [output] is missing or empty, reads
    back as the indented JSON of the fetched conversation; the standard
    output is the one line naming that path, not the JSON. *)
Theorem getCommand_saves_what_it_fetched (conversationId : string)
    (options : GetCommandOptions) (fs : FS) (c : Conversation Json)
    (Hfetched :
       ElevenLabsClient axios_create (get_apiKey options)
         {| url := "/v1/convai/conversations/" +:+ conversationId;
            config := None |} = Resolved c)
    (Hsaving :
       save options = Some true ∨
       ∃ p, get_output options = Some p ∧ p ≠ "")
    (Hsuccess : exit_status (run_get conversationId options fs).1 = None) :
  let path :=
    match get_output options with
    | Some p => if decide (p = "") then
                  "./conversations/" +:+ conversationId +:+ ".json"
                else p
    | None => "./conversations/" +:+ conversationId +:+ ".json"
    end in
  fs_readFile (run_get conversationId options fs).2 path
  = Some (Text (JSON_stringify_indented c)) ∧
  stdout (run_get conversationId options fs).1
  = ["✓ Conversation saved to: " +:+ path].
Proof.
  intros path.
  assert (or_else (get_output options)
                  ("./conversations/" +:+ conversationId +:+ ".json")
          = path) as Hpath.
  { subst path. unfold or_else, truthy_value, truthy.
    destruct (get_output options) as [p|]; simpl; [| done].
    destruct (decide (p = "")) as [-> | Hp]; [done |].
    by rewrite bool_decide_eq_true_2. }
  assert (default false (save options)
          || bool_decide (is_Some (truthy_value (get_output options)))
          = true) as Hflag.
  { destruct Hsaving as [-> | (p & -> & Hp)]; [done |].
    rewrite (proj2 (truthy_value_Some (Some p) p)) by done.
    rewrite bool_decide_eq_true_2 by by eexists.
    apply orb_true_r. }
  revert Hsuccess.
  unfold getCommand, getConversation. cbv zeta. simpl.
  rewrite Hfetched, Hflag, Hpath.
  destruct (ensure_dir_and_write _ _ _ _ path _ fs) as [fs' [error|]] eqn:Hw;
    simpl; [by intros [=] |].
  intros _. split; [| done].
  by apply (ensure_dir_and_write_read _ _ _ _ Hw).
Qed.
End GetCommandProperties.

Section AudioCommandProperties.
Variable axios_create : AxiosConfig → AxiosInstance (list Byte.byte).

Abbreviation run_audio :=
  (audioCommand dirname fs_existsSync fs_mkdirSync fs_writeFileSync
     axios_create).

(** X18.  The [download] option has no effect: the audio command fetches
    and saves whether it is set, cleared or missing. *)
Theorem audioCommand_ignores_download (conversationId : string)
    (options : AudioCommandOptions) (flag : option bool) (fs : FS) :
  run_audio conversationId
    {| download := flag; audio_output := audio_output options;
       audio_apiKey := audio_apiKey options |} fs
  = run_audio conversationId options fs.
Proof. reflexivity. Qed.

(** X19.  When the audio command does not fail, the file at [output], or
    at "./audio/<id>.wav" when [output] is missing or empty, reads back as
    exactly the bytes that the server sent, and the standard output names
    that path and the size in KB with two decimals. *)
Theorem audioCommand_saves_the_bytes (conversationId : string)
    (options : AudioCommandOptions) (fs : FS) (audio : list Byte.byte)
    (Hfetched :
       ElevenLabsClient axios_create (audio_apiKey options)
         {| url := "/v1/convai/conversations/" +:+ conversationId +:+ "/audio";
            config := Some {| params := [];
                              responseType := Some "arraybuffer" |} |}
       = Resolved audio)
    (Hsuccess : exit_status (run_audio conversationId options fs).1 = None) :
  let path :=
    match audio_output options with
    | Some p => if decide (p = "") then
                  "./audio/" +:+ conversationId +:+ ".wav"
                else p
    | None => "./audio/" +:+ conversationId +:+ ".wav"
    end in
  fs_readFile (run_audio conversationId options fs).2 path
  = Some (Binary audio) ∧
  stdout (run_audio conversationId options fs).1
  = ["✓ Audio saved to: " +:+ path;
     "  Size: " +:+ toFixed (Z.of_nat (length audio) # 1024) 2 +:+ " KB"].
Proof.
  intros path.
  assert (or_else (audio_output options)
                  ("./audio/" +:+ conversationId +:+ ".wav")
          = path) as Hpath.
  { subst path. unfold or_else, truthy_value, truthy.
    destruct (audio_output options) as [p|]; simpl; [| done].
    destruct (decide (p = "")) as [-> | Hp]; [done |].
    by rewrite bool_decide_eq_true_2. }
  revert Hsuccess.
  unfold audioCommand, getAudio. cbv zeta. simpl.
  rewrite Hfetched, Hpath.
  destruct (ensure_dir_and_write _ _ _ _ path _ fs) as [fs' [error|]] eqn:Hw;
    simpl; [by intros [=] |].
  intros _. split; [| done].
  by apply (ensure_dir_and_write_read _ _ _ _ Hw).
Qed.

(** X20.  The directory of the output path is made only when it does not
    exist, and a failure to make it stops the command before any write:
    the file system is then what [mkdirSync] left, the standard output is
    empty, and the error is reported with exit status 1.  When the fetch
    itself is rejected the file system is not touched at all. *)
Theorem audioCommand_directory_and_failures (conversationId : string)
    (options : AudioCommandOptions) (fs : FS) :
  let fetched :=
    ElevenLabsClient axios_create (audio_apiKey options)
      {| url := "/v1/convai/conversations/" +:+ conversationId +:+ "/audio";
         config := Some {| params := [];
                           responseType := Some "arraybuffer" |} |} in
  let path :=
    or_else (audio_output options) ("./audio/" +:+ conversationId +:+ ".wav") in
  let result := run_audio conversationId options fs in
  (∀ e, fetched = Rejected e →
        result.2 = fs ∧ stdout result.1 = [] ∧ exit_status result.1 = Some 1) ∧
  (∀ audio, fetched = Resolved audio →
            fs_existsSync fs (dirname path) = true →
            result.2 = (fs_writeFileSync path (Binary audio) fs).1) ∧
  (∀ audio error,
      fetched = Resolved audio →
      fs_existsSync fs (dirname path) = false →
      (fs_mkdirSync (dirname path) fs).2 = Some error →
      result
      = ({| stdout := [];
            stderr := ["✗ Error downloading audio: " +:+ error_text error];
            exit_status := Some 1 |},
         (fs_mkdirSync (dirname path) fs).1)).
Proof.
  intros fetched path result. subst result.
  unfold audioCommand, getAudio. cbv zeta. simpl. fold fetched path.
  split; [| split].
  - intros e ->. by destruct (response e).
  - intros audio -> Hdir. unfold ensure_dir_and_write. cbv zeta.
    rewrite Hdir.
    by destruct (fs_writeFileSync path (Binary audio) fs) as [fs' [?|]].
  - intros audio error -> Hdir Hmkdir. unfold ensure_dir_and_write.
    cbv zeta. rewrite Hdir.
    destruct (fs_mkdirSync (dirname path) fs) as [fs1 thrown].
    simpl in Hmkdir. by subst thrown.
Qed.
End AudioCommandProperties.
End FileCommandsProperties.

Lemma disk_write_then_read (path : string) (content : FileContent)
    (d d' : Disk) :
  disk_write path content d = (d', None) →
  disk_read d' path = Some content.
Proof.
  unfold disk_write, disk_read. case_bool_decide; [| by intros [=]].
  intros [= <-]. simpl. apply lookup_insert_eq.
Qed.

Lemma getCommand_prints_only_witness :
  getCommand disk_dirname disk_exists disk_mkdir disk_write
    stringify_id_only (λ _, conversation_server) "conv_1"
    {| save := Some false; get_output := Some ""; get_apiKey := "key" |}
    empty_disk
  = ({| stdout := ["{ id: conv_1 }"]; stderr := []; exit_status := None |},
     empty_disk).
Proof.
  apply (getCommand_prints_only disk_dirname disk_exists disk_mkdir
           disk_write stringify_id_only (λ _, conversation_server) "conv_1"
           {| save := Some false; get_output := Some "";
              get_apiKey := "key" |}
           empty_disk (conversation_of [turn_plain; turn_lookup])).
  - reflexivity.
  - right. reflexivity.
  - right. reflexivity.
Defined.

Lemma getCommand_fetch_failure_witness :
  getCommand disk_dirname disk_exists disk_mkdir disk_write
    stringify_id_only (λ _ _, Rejected not_found) "conv_invalid"
    {| save := Some true; get_output := None; get_apiKey := "key" |}
    empty_disk
  = ({| stdout := [];
        stderr := ["✗ Error fetching conversation: API Error: 404 Not Found"];
        exit_status := Some 1 |},
     empty_disk).
Proof.
  apply (getCommand_fetch_failure disk_dirname disk_exists disk_mkdir
           disk_write stringify_id_only (λ _ _, Rejected not_found)
           "conv_invalid"
           {| save := Some true; get_output := None; get_apiKey := "key" |}
           empty_disk not_found).
  reflexivity.
Defined.

Lemma getCommand_saves_what_it_fetched_witness :
  disk_read
    (getCommand disk_dirname disk_exists disk_mkdir disk_write
       stringify_id_only (λ _, conversation_server) "conv_1"
       {| save := Some true; get_output := None; get_apiKey := "key" |}
       empty_disk).2
    "./conversations/conv_1.json"
  = Some (Text "{ id: conv_1 }").
Proof.
  pose proof (getCommand_saves_what_it_fetched disk_dirname disk_exists
                disk_mkdir disk_write disk_read disk_write_then_read
                stringify_id_only (λ _, conversation_server) "conv_1"
                {| save := Some true; get_output := None;
                   get_apiKey := "key" |}
                empty_disk (conversation_of [turn_plain; turn_lookup])
                eq_refl (or_introl eq_refl)) as Hsaved.
  apply Hsaved. by vm_compute.
Defined.

Lemma audioCommand_saves_the_bytes_witness :
  let result :=
    audioCommand disk_dirname disk_exists disk_mkdir disk_write
      (λ _, audio_server) "conv_1"
      {| download := None; audio_output := Some "out/call.wav";
         audio_apiKey := "key" |}
      empty_disk in
  disk_read result.2 "out/call.wav" = Some (Binary three_bytes) ∧
  stdout result.1 = ["✓ Audio saved to: out/call.wav"; "  Size: 0.00 KB"].
Proof.
  pose proof (audioCommand_saves_the_bytes disk_dirname disk_exists
                disk_mkdir disk_write disk_read disk_write_then_read
                (λ _, audio_server) "conv_1"
                {| download := None; audio_output := Some "out/call.wav";
                   audio_apiKey := "key" |}
                empty_disk three_bytes eq_refl) as Hsaved.
  destruct Hsaved as [Hread Hout]; [by vm_compute |].
  split; [exact Hread |]. rewrite Hout. by vm_compute.
Defined.

Lemma audioCommand_directory_and_failures_witness :
  audioCommand disk_dirname disk_exists readonly_mkdir disk_write
    (λ _, audio_server) "conv_1"
    {| download := Some true; audio_output := None; audio_apiKey := "key" |}
    empty_disk
  = ({| stdout := [];
        stderr :=
          ["✗ Error downloading audio: EACCES: permission denied, mkdir './audio'"];
        exit_status := Some 1 |},
     empty_disk).
Proof.
  pose proof (audioCommand_directory_and_failures disk_dirname disk_exists
                readonly_mkdir disk_write (λ _, audio_server) "conv_1"
                {| download := Some true; audio_output := None;
                   audio_apiKey := "key" |}
                empty_disk) as (_ & _ & Hmkdir).
  apply (Hmkdir three_bytes
           (Error "EACCES: permission denied, mkdir './audio'"));
    by vm_compute.
Defined.

(** ** index.ts *)

(** X21.  [getApiKey] returns a key that is not empty, or passes the
    line "✗ Error: ELEVENLABS_API_KEY not found. ..." to [console.error]
    and the status 1 to [process.exit]; a non-empty [--api-key] value is
    returned as it is, and the process environment is then left alone.
    Nothing is said of what [dotenv.config] prints by itself. *)
Theorem getApiKey_outcome (parse : string → gmap string string)
    (defaultEnvPath : string) (cmdApiKey : option string)
    (fs env : gmap string string) :
  match (getApiKey parse defaultEnvPath cmdApiKey fs env).1 with
  | inl key => key ≠ ""
  | inr out =>
    out = {| console_error := "✗ Error: ELEVENLABS_API_KEY not found. Set it via .env file, environment variable, or --api-key flag.";
             process_exit := 1 |}
  end ∧
  (∀ key, cmdApiKey = Some key → key ≠ "" →
          getApiKey parse defaultEnvPath cmdApiKey fs env = (inl key, env)).
Proof.
  unfold getApiKey. rewrite loadConfig_unfold. simpl. split.
  - destruct (truthy_value cmdApiKey) as [a|] eqn:Ha; simpl.
    { by apply truthy_value_Some in Ha as [_ Hne]. }
    destruct (truthy_value (_ !! ELEVENLABS_API_KEY)) as [k|] eqn:Hk;
      simpl; [| done].
    by apply truthy_value_Some in Hk as [_ Hne].
  - intros key -> Hne.
    by rewrite (proj2 (truthy_value_Some (Some key) key)).
Qed.

Lemma getApiKey_outcome_witness :
  getApiKey key_value_lines ".env" (Some "A") env_file_C process_env_B
  = (inl "A", process_env_B) ∧
  (getApiKey key_value_lines ".env" None ∅ process_env_blank).1
  = inr {| console_error := "✗ Error: ELEVENLABS_API_KEY not found. Set it via .env file, environment variable, or --api-key flag.";
           process_exit := 1 |}.
Proof.
  split.
  - apply (getApiKey_outcome key_value_lines ".env" (Some "A") env_file_C
             process_env_B); [reflexivity | done].
  - pose proof (getApiKey_outcome key_value_lines ".env" None ∅
                  process_env_blank) as [Hout _].
    destruct (getApiKey key_value_lines ".env" None ∅ process_env_blank).1
      as [key | out] eqn:Hrun.
    + by vm_compute in Hrun.
    + by rewrite Hout.
Defined.
